(** * The allele-frequency histogram of [collect_data.py]

    A shallow embedding of [get_prob_dist] (src/collect_data.py, lines 73-85)
    and of the numpy and pandas operations it calls, followed by the
    properties of the table it returns.

    Numbers.  The arrays [bins], [af], [pRA], [pAA], [a] and [b] hold float64
    values.  They are modelled as exact rationals ([Q]), the reading the
    specification gives them ("real number in [0, 1]"); the integer arrays
    ([variant_n_het], [variant_n_hom_alt], the final [count]) are [Z].
    Module [binary64] repeats the operations on IEEE doubles, and the last
    section runs the concrete inputs used below in that arithmetic.

    Errors.  A Python call either returns a value or raises: [result].

    Objects.  [get_prob_dist] is first given as a function of the dataset's
    values, then, with [ds] and [bins] as references into a heap of objects,
    as [get_prob_dist_on_heap]; the two are related by
    [get_prob_dist_on_heap_spec].

    The rest of the module.  [get_file_size], [get_dir_size] and [du] are
    given on a snapshot of the file system; [time_cli_command] and
    [run_sgkit_afdist] on what the subprocess or the worker has produced,
    with Python's [float] and float formatting as parameters; [file_size] on
    what its loop finds for each path of the glob, with a trace of what it
    writes and prints. *)

From Stdlib Require Import String Ascii.
From Stdlib Require Import List ZArith NArith QArith Qround Lia Lqa Bool.
From Stdlib Require Import Permutation Sorted.
From Stdlib Require PrimFloat Uint63 FloatOps SpecFloat.
Import ListNotations.

Local Open Scope Q_scope.

(** ** Results and exceptions *)

Inductive exn : Type :=
| ValueError
| IndexError
| AttributeError.

Inductive result (A : Type) : Type :=
| Ok (a : A)
| Raise (e : exn).

Arguments Ok {A} a.
Arguments Raise {A} e.

Definition bind {A B : Type} (r : result A) (k : A -> result B) : result B :=
  match r with
  | Ok a => k a
  | Raise e => Raise e
  end.

Notation "x <- c ;; k" := (bind c (fun x => k))
  (at level 61, c at next level, right associativity).

(** ** Array helpers: Python indexing and slicing on one-dimensional arrays *)

(** [xs[:-1]] *)
Definition but_last {A : Type} (xs : list A) : list A := removelast xs.

(** [xs[1:]] *)
Definition from_1 {A : Type} (xs : list A) : list A := tl xs.

(** [xs[-1] = v]; nothing to overwrite in an empty array. *)
Fixpoint set_last {A : Type} (xs : list A) (v : A) : list A :=
  match xs with
  | [] => []
  | [_] => [v]
  | x :: r => x :: set_last r v
  end.

(** [xs[-1] += d]: IndexError on an empty array. *)
Definition incr_last (xs : list Q) (d : Q) : result (list Q) :=
  match xs with
  | [] => Raise IndexError
  | _ => Ok (set_last xs (last xs 0 + d))
  end.

(** [m[:, k]] on a two-dimensional array given by its rows: IndexError when
    the second axis is shorter than [k + 1]. *)
Fixpoint column (k : nat) (m : list (list Q)) : result (list Q) :=
  match m with
  | [] => Ok []
  | row :: rest =>
      match nth_error row k with
      | None => Raise IndexError
      | Some v => vs <- column k rest ;; Ok (v :: vs)
      end
  end.

(** ** numpy *)

Module np.

(** [np.linspace(start, stop, num)] with [endpoint=True]: [num] samples
    [start + i * step], [step = (stop - start) / (num - 1)], the last one
    set to [stop]; a single sample is [start]; ValueError when [num < 0]. *)
Definition linspace (start stop : Q) (num : Z) : result (list Q) :=
  if (num <? 0)%Z then Raise ValueError
  else
    let div := (num - 1)%Z in
    let delta := stop - start in
    let y := map (fun i => inject_Z (Z.of_nat i)) (seq 0 (Z.to_nat num)) in
    let y :=
      if (0 <? div)%Z
      then map (fun v => v * (delta / inject_Z div)) y
      else map (fun v => v * delta) y in
    let y := map (fun v => v + start) y in
    Ok (if (1 <? num)%Z then set_last y stop else y).

(** The direction of a bin array, as [np.digitize] determines it: [1] when
    non-decreasing, [-1] when non-increasing (and not constant), [0]
    otherwise. *)
Fixpoint nondecreasing (bins : list Q) : bool :=
  match bins with
  | [] => true
  | b :: rest =>
      match rest with
      | [] => true
      | c :: _ => Qle_bool b c && nondecreasing rest
      end
  end.

Fixpoint nonincreasing (bins : list Q) : bool :=
  match bins with
  | [] => true
  | b :: rest =>
      match rest with
      | [] => true
      | c :: _ => Qle_bool c b && nonincreasing rest
      end
  end.

Definition monotonicity (bins : list Q) : Z :=
  if nondecreasing bins then 1%Z
  else if nonincreasing bins then (-1)%Z
  else 0%Z.

(** [np.searchsorted(a, v, side='right')] on an ascending array: the
    insertion point after every entry [<= v]. *)
Fixpoint searchsorted_right (a : list Q) (v : Q) : nat :=
  match a with
  | [] => O
  | e :: rest => if Qle_bool e v then S (searchsorted_right rest v) else O
  end.

(** [np.digitize(x, bins)] with [right=False]: index [i] such that
    [bins[i-1] <= x < bins[i]], [0] below the first edge, [len(bins)] from
    the last edge on; ValueError when [bins] is not monotonic. *)
Definition digitize (x bins : list Q) : result (list nat) :=
  let mono := monotonicity bins in
  if (mono =? 0)%Z then Raise ValueError
  else if (mono =? -1)%Z
  then Ok (map (fun v => (length bins - searchsorted_right (rev bins) v)%nat) x)
  else Ok (map (searchsorted_right bins) x).

(** [out[n] += w], the accumulation step of [np.bincount]. *)
Fixpoint add_at (n : nat) (w : Q) (out : list Q) : list Q :=
  match out with
  | [] => []
  | o :: rest =>
      match n with
      | O => (o + w) :: rest
      | S n' => o :: add_at n' w rest
      end
  end.

(** One element [x[i]] with its weight, cast to double, added to the counts. *)
Definition accumulate (out : list Q) (iw : nat * Z) : list Q :=
  add_at (fst iw) (inject_Z (snd iw)) out.

(** The length of the array [np.bincount] returns:
    [max(max(x) + 1, minlength)], and [minlength] for an empty [x]. *)
Definition bincount_size (x : list nat) (minlength : Z) : nat :=
  match x with
  | [] => Z.to_nat minlength
  | _ => Nat.max (list_max x + 1) (Z.to_nat minlength)
  end.

(** [np.bincount(x, weights=weights, minlength=minlength)]: an array of
    doubles, [out[n]] being the sum of the [weights[i]] with [x[i] = n].  The
    integer weights are cast to double.  ValueError when [weights] and [x]
    differ in length or [minlength] is negative. *)
Definition bincount (x : list nat) (weights : list Z) (minlength : Z)
  : result (list Q) :=
  if negb (length weights =? length x)%nat then Raise ValueError
  else if (minlength <? 0)%Z then Raise ValueError
  else
    Ok (fold_left accumulate (combine x weights)
                  (repeat 0 (bincount_size x minlength))).

(** [a + b] on one-dimensional arrays: elementwise, an array of length one
    being broadcast; ValueError when the shapes do not match. *)
Definition add (a b : list Q) : result (list Q) :=
  if (length a =? length b)%nat
  then Ok (map (fun p => fst p + snd p) (combine a b))
  else
    match a, b with
    | [x], _ => Ok (map (fun y => x + y) b)
    | _, [y] => Ok (map (fun x => x + y) a)
    | _, _ => Raise ValueError
    end.

(** [x.astype(int)] on one double: truncation toward zero. *)
Definition trunc (q : Q) : Z := Z.quot (Qnum q) (Zpos (Qden q)).

Definition astype_int (xs : list Q) : list Z := map trunc xs.

End np.

(** ** pandas *)

Module pd.

(** The table built at line 85: three columns of equal length. *)
Record DataFrame : Type := mkDataFrame {
  start : list Q;
  stop : list Q;
  prob_dist : list Z
}.

(** [pd.DataFrame({"start": s, "stop": e, "prob_dist": c})]: ValueError
    unless all arrays have the same length. *)
Definition DataFrame_of (s e : list Q) (c : list Z) : result DataFrame :=
  if (length s =? length e)%nat && (length e =? length c)%nat
  then Ok (mkDataFrame s e c)
  else Raise ValueError.

End pd.

(** ** The dataset *)

(** One variant site of the dataset [ds]: its row of
    [ds.variant_allele_frequency] (one frequency per allele, the alternate
    allele in column 1), and its entries of [ds.variant_n_het] and
    [ds.variant_n_hom_alt].  The variables of a dataset share the [variants]
    dimension, so a dataset is a list of such rows. *)
Record Variant : Type := mkVariant {
  allele_frequency : list Q;
  n_het : Z;
  n_hom_alt : Z
}.

Definition Dataset : Type := list Variant.

Definition variant_allele_frequency (ds : Dataset) : list (list Q) :=
  map allele_frequency ds.
Definition variant_n_het (ds : Dataset) : list Z := map n_het ds.
Definition variant_n_hom_alt (ds : Dataset) : list Z := map n_hom_alt ds.

(** ** [get_prob_dist] *)

(** Lines 74-75: the bin edges. *)
Definition bin_edges (num_bins : Z) : result (list Q) :=
  bins <- np.linspace 0 1.0 (num_bins + 1) ;;
  incr_last bins 0.01.

(** Lines 73-85. *)
Definition get_prob_dist (ds : Dataset) (num_bins : Z) : result pd.DataFrame :=
  bins <- bin_edges num_bins ;;                              (* 74-75 *)
  af <- column 1 (variant_allele_frequency ds) ;;            (* 76 *)
  let pRA := map (fun p => 2 * p * (1 - p)) af in            (* 77 *)
  let pAA := map (fun p => p * p) af in                      (* 78 *)
  let hets := variant_n_het ds in                            (* 79 *)
  let homs := variant_n_hom_alt ds in                        (* 80 *)
  iRA <- np.digitize pRA bins ;;                             (* 81 *)
  a <- np.bincount iRA hets (num_bins + 1) ;;
  iAA <- np.digitize pAA bins ;;                             (* 82 *)
  b <- np.bincount iAA homs (num_bins + 1) ;;
  ab <- np.add a b ;;                                        (* 84 *)
  let count := np.astype_int ab in
  pd.DataFrame_of (but_last bins) (from_1 bins) (from_1 count).  (* 85 *)

(** A biallelic site given by its alternate-allele frequency, het count and
    hom-alt count. *)
Definition site (p : Q) (het hom : Z) : Variant :=
  mkVariant [1 - p; p] het hom.

(** * The call on a heap of objects *)

(** The caller's objects: the dataset passed as [ds], numpy arrays, and
    whatever else the program holds.  A reference is a position in the heap.
    The only in-place operation of [get_prob_dist] is [bins[-1] += 0.01] at
    line 75; [af] is a view of the dataset's array and is only read. *)
Inductive object : Type :=
| DatasetObj (ds : Dataset)
| ArrayObj (xs : list Q)
| OtherObj (tag : nat).

Definition heap : Type := list object.

Definition M (A : Type) : Type := heap -> result A * heap.

Definition ret {A : Type} (a : A) : M A := fun h => (Ok a, h).

Definition bindM {A B : Type} (m : M A) (k : A -> M B) : M B :=
  fun h =>
    match m h with
    | (Ok a, h') => k a h'
    | (Raise e, h') => (Raise e, h')
    end.

(** A call that touches no object. *)
Definition lift {A : Type} (r : result A) : M A := fun h => (r, h).

Notation "x <~ c ;; k" := (bindM c (fun x => k))
  (at level 61, c at next level, right associativity).

(** A new array object. *)
Definition new_array (xs : list Q) : M nat :=
  fun h => (Ok (length h), h ++ [ArrayObj xs]).

Definition contents (h : heap) (r : nat) : list Q :=
  match nth_error h r with
  | Some (ArrayObj xs) => xs
  | _ => []
  end.

Definition read (r : nat) : M (list Q) := fun h => (Ok (contents h r), h).

Fixpoint put (r : nat) (o : object) (h : heap) : heap :=
  match h with
  | [] => []
  | x :: t =>
      match r with
      | O => o :: t
      | S r' => x :: put r' o t
      end
  end.

(** [r[-1] += d], in place. *)
Definition incr_last_in_place (r : nat) (d : Q) : M unit :=
  fun h =>
    match incr_last (contents h r) d with
    | Ok xs => (Ok tt, put r (ArrayObj xs) h)
    | Raise e => (Raise e, h)
    end.

(** Attribute access on [ds]: AttributeError unless it is a dataset. *)
Definition dataset (r : nat) : M Dataset :=
  fun h =>
    match nth_error h r with
    | Some (DatasetObj ds) => (Ok ds, h)
    | _ => (Raise AttributeError, h)
    end.

(** Lines 73-85, with [ds] and [bins] as references. *)
Definition get_prob_dist_on_heap (ds : nat) (num_bins : Z) : M pd.DataFrame :=
  y <~ lift (np.linspace 0 1.0 (num_bins + 1)) ;;            (* 74 *)
  bins <~ new_array y ;;
  _ <~ incr_last_in_place bins 0.01 ;;                       (* 75 *)
  let af :=
    (d <~ dataset ds ;; lift (column 1 (variant_allele_frequency d))) in
  _ <~ af ;;                                                 (* 76 *)
  p <~ af ;;
  let pRA := map (fun p => 2 * p * (1 - p)) p in             (* 77 *)
  p <~ af ;;
  let pAA := map (fun p => p * p) p in                       (* 78 *)
  hets <~ (d <~ dataset ds ;; ret (variant_n_het d)) ;;      (* 79 *)
  homs <~ (d <~ dataset ds ;; ret (variant_n_hom_alt d)) ;;  (* 80 *)
  e <~ read bins ;;
  iRA <~ lift (np.digitize pRA e) ;;                         (* 81 *)
  a <~ lift (np.bincount iRA hets (num_bins + 1)) ;;
  e <~ read bins ;;
  iAA <~ lift (np.digitize pAA e) ;;                         (* 82 *)
  b <~ lift (np.bincount iAA homs (num_bins + 1)) ;;
  ab <~ lift (np.add a b) ;;                                 (* 84 *)
  let count := np.astype_int ab in
  e <~ read bins ;;
  lift (pd.DataFrame_of (but_last e) (from_1 e) (from_1 count)).  (* 85 *)

(** The heap keeps every object it had. *)
Definition preserves (h h' : heap) : Prop :=
  forall r o, nth_error h r = Some o -> nth_error h' r = Some o.

(** * The same lines in binary64 arithmetic *)

(** The operations above on IEEE 754 binary64 values, the [float64] of
    numpy, for running [get_prob_dist] on concrete datasets in the arithmetic
    the program uses.  The dataset's frequencies and the literals [1.0] and
    [0.01] are rounded to the nearest double. *)
Module binary64.

Definition float : Set := PrimFloat.float.

(** An integer of magnitude below 2^63 as a double, rounded to nearest. *)
Definition of_Z (z : Z) : float :=
  if (z <? 0)%Z
  then PrimFloat.opp (PrimFloat.of_uint63 (Uint63.of_Z (- z)))
  else PrimFloat.of_uint63 (Uint63.of_Z z).

(** The double nearest to a fraction of two integers below 2^53. *)
Definition of_Q (q : Q) : float :=
  PrimFloat.div (of_Z (Qnum q)) (of_Z (Zpos (Qden q))).

(** [x.astype(int)]: truncation toward zero; the minimal [int64] for NaN and
    the infinities. *)
Definition trunc (x : float) : Z :=
  match FloatOps.Prim2SF x with
  | SpecFloat.S754_zero _ => 0%Z
  | SpecFloat.S754_finite s m e =>
      let v :=
        if (0 <=? e)%Z then (Zpos m * 2 ^ e)%Z else (Zpos m / 2 ^ (- e))%Z in
      if s then (- v)%Z else v
  | _ => (- 2 ^ 63)%Z
  end.

Definition incr_last (xs : list float) (d : float) : result (list float) :=
  match xs with
  | [] => Raise IndexError
  | _ => Ok (set_last xs (PrimFloat.add (last xs (of_Z 0)) d))
  end.

Definition linspace (start stop : float) (num : Z) : result (list float) :=
  if (num <? 0)%Z then Raise ValueError
  else
    let div := (num - 1)%Z in
    let delta := PrimFloat.sub stop start in
    let y := map (fun i => of_Z (Z.of_nat i)) (seq 0 (Z.to_nat num)) in
    let y :=
      if (0 <? div)%Z
      then map (fun v => PrimFloat.mul v (PrimFloat.div delta (of_Z div))) y
      else map (fun v => PrimFloat.mul v delta) y in
    let y := map (fun v => PrimFloat.add v start) y in
    Ok (if (1 <? num)%Z then set_last y stop else y).

Fixpoint nondecreasing (bins : list float) : bool :=
  match bins with
  | [] => true
  | b :: rest =>
      match rest with
      | [] => true
      | c :: _ => PrimFloat.leb b c && nondecreasing rest
      end
  end.

Fixpoint nonincreasing (bins : list float) : bool :=
  match bins with
  | [] => true
  | b :: rest =>
      match rest with
      | [] => true
      | c :: _ => PrimFloat.leb c b && nonincreasing rest
      end
  end.

Fixpoint searchsorted_right (a : list float) (v : float) : nat :=
  match a with
  | [] => O
  | e :: rest =>
      if PrimFloat.leb e v then S (searchsorted_right rest v) else O
  end.

Definition digitize (x bins : list float) : result (list nat) :=
  if nondecreasing bins then Ok (map (searchsorted_right bins) x)
  else if nonincreasing bins
  then Ok (map (fun v => (length bins - searchsorted_right (rev bins) v)%nat) x)
  else Raise ValueError.

Fixpoint add_at (n : nat) (w : float) (out : list float) : list float :=
  match out with
  | [] => []
  | o :: rest =>
      match n with
      | O => PrimFloat.add o w :: rest
      | S n' => o :: add_at n' w rest
      end
  end.

Definition bincount (x : list nat) (weights : list Z) (minlength : Z)
  : result (list float) :=
  if negb (length weights =? length x)%nat then Raise ValueError
  else if (minlength <? 0)%Z then Raise ValueError
  else
    Ok (fold_left (fun out iw => add_at (fst iw) (of_Z (snd iw)) out)
                  (combine x weights)
                  (repeat (of_Z 0) (np.bincount_size x minlength))).

Definition add (a b : list float) : result (list float) :=
  if (length a =? length b)%nat
  then Ok (map (fun p => PrimFloat.add (fst p) (snd p)) (combine a b))
  else
    match a, b with
    | [x], _ => Ok (map (fun y => PrimFloat.add x y) b)
    | _, [y] => Ok (map (fun x => PrimFloat.add x y) a)
    | _, _ => Raise ValueError
    end.

Record DataFrame : Type := mkDataFrame {
  start : list float;
  stop : list float;
  prob_dist : list Z
}.

Definition DataFrame_of (s e : list float) (c : list Z) : result DataFrame :=
  if (length s =? length e)%nat && (length e =? length c)%nat
  then Ok (mkDataFrame s e c)
  else Raise ValueError.

Definition get_prob_dist (ds : Dataset) (num_bins : Z) : result DataFrame :=
  bins <- linspace (of_Z 0) (of_Q 1.0) (num_bins + 1) ;;
  bins <- incr_last bins (of_Q 0.01) ;;
  af <- column 1 (variant_allele_frequency ds) ;;
  let af := map of_Q af in
  let pRA :=
    map (fun p => PrimFloat.mul (PrimFloat.mul (of_Z 2) p)
                                (PrimFloat.sub (of_Z 1) p)) af in
  let pAA := map (fun p => PrimFloat.mul p p) af in
  let hets := variant_n_het ds in
  let homs := variant_n_hom_alt ds in
  iRA <- digitize pRA bins ;;
  a <- bincount iRA hets (num_bins + 1) ;;
  iAA <- digitize pAA bins ;;
  b <- bincount iAA homs (num_bins + 1) ;;
  ab <- add a b ;;
  let count := map trunc ab in
  DataFrame_of (but_last bins) (from_1 bins) (from_1 count).

End binary64.

(** * The rest of [collect_data.py] *)

(** ** Exceptions and outcomes *)

(** The exceptions of the harness: the ones above, those of the file
    system, the subprocess and the interpreter, and whatever [tskit] or
    [sgkit] raise when a file does not load. *)
Inductive error : Type :=
| Std (e : exn)
| FileNotFoundError
| CalledProcessError
| AssertionError
| UnboundLocalError
| LibraryError.

Inductive outcome (A : Type) : Type :=
| Returns (a : A)
| Raises (e : error).

Arguments Returns {A} a.
Arguments Raises {A} e.

(** ** File sizes: [get_file_size], [get_dir_size], [du] (lines 17-28) *)

(** What a path may refer to: a regular file, a directory with its entries,
    or something else (a fifo, a socket, a device).  Each has the [st_size]
    that [stat()] reports.  The file system is a snapshot: it does not change
    while the sizes are added up, and it has no symbolic links. *)
#[warnings="-register-all"]
Inductive node : Type :=
| File (st_size : N)
| Directory (st_size : N) (entries : list node)
| Special (st_size : N).

(** A [pathlib.Path]: the object it refers to, if there is one. *)
Definition Path : Type := option node.

Definition is_file (p : Path) : bool :=
  match p with
  | Some (File _) => true
  | _ => false
  end.

(** [p.stat().st_size]: FileNotFoundError when nothing is there. *)
Definition stat_st_size (p : Path) : outcome N :=
  match p with
  | Some (File s) | Some (Directory s _) | Some (Special s) => Returns s
  | None => Raises FileNotFoundError
  end.

(** [dir.glob("**/*")]: every file and directory below [dir], at any depth;
    nothing when [dir] is not a directory. *)
Fixpoint descendants (n : node) : list node :=
  match n with
  | Directory _ es => flat_map (fun e => e :: descendants e) es
  | _ => []
  end.

Definition glob_all (dir : Path) : list Path :=
  match dir with
  | Some n => map Some (descendants n)
  | None => []
  end.

(** Lines 17-18. *)
Definition get_file_size (file : Path) : outcome N := stat_st_size file.

(** [sum(get_file_size(f) for f in fs if f.is_file())], continued from the
    running total [acc]. *)
Fixpoint sum_file_sizes (acc : N) (fs : list Path) : outcome N :=
  match fs with
  | [] => Returns acc
  | f :: rest =>
      if is_file f
      then match get_file_size f with
           | Returns s => sum_file_sizes (acc + s) rest
           | Raises e => Raises e
           end
      else sum_file_sizes acc rest
  end.

(** Lines 21-22. *)
Definition get_dir_size (dir : Path) : outcome N :=
  sum_file_sizes 0 (glob_all dir).

(** Lines 25-28. *)
Definition du (file : Path) : outcome N :=
  if is_file file then get_file_size file else get_dir_size file.

(** ** Timing a command: [ProcessTimeResult], [time_cli_command],
    [sgkit_afdist_worker], [run_sgkit_afdist] *)

(** A Python [str]: its code points. *)
Definition str : Type := list N.

(** [c.isspace()] for one code point. *)
Definition isspace (c : N) : bool :=
  (((9 <=? c) && (c <=? 13)) || ((28 <=? c) && (c <=? 32))
   || (c =? 133) || (c =? 160) || (c =? 5760)
   || ((8192 <=? c) && (c <=? 8202))
   || (c =? 8232) || (c =? 8233) || (c =? 8239) || (c =? 8287)
   || (c =? 12288))%N.

(** [s.split()]: the maximal runs of non-whitespace characters of [s];
    [word] is the run being read. *)
Fixpoint split_from (word : option str) (s : str) : list str :=
  match s with
  | [] =>
      match word with
      | Some w => [w]
      | None => []
      end
  | c :: rest =>
      if isspace c
      then match word with
           | Some w => w :: split_from None rest
           | None => split_from None rest
           end
      else split_from (Some (match word with
                             | Some w => w ++ [c]
                             | None => [c]
                             end)) rest
  end.

Definition split (s : str) : list str := split_from None s.

Section Timing.

(** The type of Python floats, with [float(s)] on a [str] (None: ValueError)
    and the text [f"{x}"] of a float. *)
Variable F : Type.
Variable float_of_str : str -> option F.
Variable str_of_float : F -> str.

(** Lines 31-35. *)
Record ProcessTimeResult : Type := mkProcessTimeResult {
  wall : F;
  system : F;
  user : F
}.

(** [x1, ..., xn = map(float, tokens)]: the tokens are converted one by one
    as the targets are filled, then one more is asked for; a token that is
    not a float, a missing token and an extra token all raise ValueError. *)
Fixpoint unpack_floats (n : nat) (tokens : list str) : outcome (list F) :=
  match n with
  | O =>
      match tokens with
      | [] => Returns []
      | _ :: _ => Raises (Std ValueError)
      end
  | S n' =>
      match tokens with
      | [] => Raises (Std ValueError)
      | t :: rest =>
          match float_of_str t with
          | None => Raises (Std ValueError)
          | Some x =>
              match unpack_floats n' rest with
              | Returns xs => Returns (x :: xs)
              | Raises e => Raises e
              end
          end
      end
  end.

(** What [subprocess.run(cmd, shell=True, check=True, capture_output=True)]
    found: the exit status and the decoded texts of the two pipes. *)
Record CompletedProcess : Type := mkCompletedProcess {
  returncode : Z;
  stdout : str;
  stderr : str
}.

(** Lines 38-53, given the elapsed wall-clock time and the outcome of the
    command; the second component is what [print] has written. *)
Definition time_cli_command (wall_time : F) (out : CompletedProcess)
           (debug : bool) : outcome ProcessTimeResult * list str :=
  if negb (returncode out =? 0)%Z then (Raises CalledProcessError, [])
  else
    let time_str := stderr out in
    match unpack_floats 2 (split time_str) with
    | Returns [sys_time; user_time] =>
        (Returns (mkProcessTimeResult wall_time sys_time user_time),
         if debug then [stdout out] else [])
    | Returns _ => (Raises (Std ValueError), [])
    | Raises e => (Raises e, [])
    end.

(** Line 109: the message the worker sends,
    [f"{wall_time} {cpu_times.user} {cpu_times.system}"]. *)
Definition sgkit_afdist_worker_message (wall_time cpu_user cpu_system : F)
  : str :=
  str_of_float wall_time ++ [32%N] ++ str_of_float cpu_user
  ++ [32%N] ++ str_of_float cpu_system.

(** Lines 118-124, given the message received from the worker and the
    worker's exit code. *)
Definition run_sgkit_afdist (value : str) (exitcode : Z)
  : outcome ProcessTimeResult :=
  match unpack_floats 3 (split value) with
  | Returns [wall_time; user_time; sys_time] =>
      if negb (exitcode =? 0)%Z then Raises (Std ValueError)
      else Returns (mkProcessTimeResult wall_time sys_time user_time)
  | Returns _ => Raises (Std ValueError)
  | Raises e => Raises e
  end.

End Timing.

Arguments wall {F} p.
Arguments system {F} p.
Arguments user {F} p.
Arguments mkProcessTimeResult {F} wall system user.

(** ** Collecting file sizes: [file_size] (lines 177-220) *)

(** What [tskit.load] gives for a tree sequence file, as far as [file_size]
    reads it. *)
Record TreeSequence : Type := mkTreeSequence {
  num_individuals : Z;
  num_samples : Z;
  num_sites : Z;
  sequence_length : Q;
  sites_position : list Q
}.

(** What [sg.load_dataset] gives: [ds.samples.shape[0]] and
    [ds.variant_position]. *)
Record SgkitDataset : Type := mkSgkitDataset {
  samples_shape0 : Z;
  variant_position : list Z
}.

(** What the body of the loop finds for one [ts_path] of the glob: the
    outcome of the two loads, and the objects at [ts_path] and at the paths
    derived from it with [with_suffix]. *)
Record Source : Type := mkSource {
  ts_path : string;
  load_ts : outcome TreeSequence;
  load_ds : outcome SgkitDataset;
  tsk_file : Path;
  bcf_file : Path;
  sg_file : Path;
  sav_file : Path;
  genozip_file : Path
}.

(** One dictionary appended to [data] (lines 208-216). *)
Record Row : Type := mkRow {
  row_sequence_length : Z;
  row_num_samples : Z;
  row_num_sites : Z;
  row_tool : string;
  row_size : N
}.

(** A data frame: the rows with their index labels. *)
Definition Table : Type := list (nat * Row).

(** [pd.DataFrame(data)]: the rows labelled 0, 1, 2, ... *)
Definition DataFrame_of_rows (data : list Row) : Table :=
  combine (seq 0 (length data)) data.

(** The order of [sort_values(["num_samples", "tool"])]: by [num_samples],
    then by [tool] as Python compares strings. *)
Definition row_ltb (a b : Row) : bool :=
  (row_num_samples a <? row_num_samples b)%Z
  || ((row_num_samples a =? row_num_samples b)%Z
      && String.ltb (row_tool a) (row_tool b)).

(** The sort is stable: a row goes after the rows that do not come after
    it. *)
Fixpoint insert_row (x : nat * Row) (t : Table) : Table :=
  match t with
  | [] => [x]
  | y :: rest =>
      if row_ltb (snd x) (snd y) then x :: y :: rest
      else y :: insert_row x rest
  end.

Definition sort_values (t : Table) : Table :=
  fold_left (fun sorted x => insert_row x sorted) t [].

(** What the run writes and prints, in order. *)
Inductive event : Type :=
| Echo (path : string) (n m : Z)
| PrintSkipping (path : Path)
| ToCsv (df : Table)
| Print (df : Table).

(** The variables [data] and [df] of [file_size] and what it has written so
    far; [df] is unbound until line 217 has run once. *)
Record state : Type := mkState {
  fs_data : list Row;
  fs_df : option Table;
  fs_events : list event
}.

Definition emit (e : event) (st : state) : state :=
  mkState (fs_data st) (fs_df st) (fs_events st ++ [e]).

(** A [for] loop whose body may raise. *)
Fixpoint for_each {A : Type} (body : A -> state -> option error * state)
         (items : list A) (st : state) : option error * state :=
  match items with
  | [] => (None, st)
  | x :: rest =>
      match body x st with
      | (None, st') => for_each body rest st'
      | (Some e, st') => (Some e, st')
      end
  end.

(** [sg_path.exists], without a call: the bound method, an object that is
    true whether or not the path exists. *)
Definition exists_attribute (p : Path) : bool := true.

(** [np.array_equal(a, b)] on one-dimensional integer arrays. *)
Definition array_equal (a b : list Z) : bool :=
  (length a =? length b)%nat
  && forallb (fun p => (fst p =? snd p)%Z) (combine a b).

(** Lines 199-205: [tmap.items()], in insertion order. *)
Definition tmap (src : Source) : list (string * Path) :=
  [("tsk"%string, tsk_file src); ("bcf"%string, bcf_file src);
   ("sgkit"%string, sg_file src); ("sav"%string, sav_file src);
   ("genozip"%string, genozip_file src)].

(** Lines 206-218: the body of the inner loop. *)
Definition tool_step (ts : TreeSequence) (ds : SgkitDataset)
           (item : string * Path) (st : state) : option error * state :=
  match du (snd item) with
  | Raises e => (Some e, st)
  | Returns size =>
      let row :=
        mkRow (np.trunc (sequence_length ts)) (samples_shape0 ds)
              (num_sites ts) (fst item) size in
      let data' := fs_data st ++ [row] in
      let df' := sort_values (DataFrame_of_rows data') in
      (None, mkState data' (Some df') (fs_events st ++ [ToCsv df']))
  end.

(** Lines 184-218: the body of the outer loop. *)
Definition source_step (src : Source) (st : state) : option error * state :=
  match load_ts src with
  | Raises e => (Some e, st)
  | Returns ts =>
      let st := emit (Echo (ts_path src) (num_individuals ts) (num_sites ts))
                     st in
      if negb (exists_attribute (sg_file src))
      then (None, emit (PrintSkipping (sg_file src)) st)
      else
        match load_ds src with
        | Raises e => (Some e, st)
        | Returns ds =>
            if negb (num_samples ts / 2 =? samples_shape0 ds)%Z
            then (Some AssertionError, st)
            else if negb (num_sites ts
                          =? Z.of_nat (length (variant_position ds)))%Z
            then (Some AssertionError, st)
            else if negb (array_equal
                            (variant_position ds)
                            (map np.trunc (sites_position ts)))
            then (Some AssertionError, st)
            else for_each (tool_step ts ds) (tmap src) st
        end
  end.

(** Lines 182-220, on the files the glob yields, in its order. *)
Definition file_size (sources : list Source) : option error * state :=
  match for_each source_step sources (mkState [] None []) with
  | (Some e, st) => (Some e, st)
  | (None, st) =>
      match fs_df st with
      | None => (Some UnboundLocalError, st)
      | Some t => (None, emit (Print t) st)
      end
  end.

(** * Notions used in the statements *)

(** The [i]-th sample of [np.linspace(0, 1.0, num_bins + 1)], as line 74
    computes it. *)
Definition grid (num_bins : Z) (i : nat) : Q :=
  inject_Z (Z.of_nat i) * ((1.0 - 0) / inject_Z num_bins) + 0.

Definition edges (num_bins : Z) : list Q :=
  map (grid num_bins) (seq 0 (Z.to_nat num_bins)) ++ [1.0 + 0.01].

(** The index [np.digitize] gives a value against the edges of line 75. *)
Definition bin_index (num_bins : Z) (v : Q) : nat :=
  np.searchsorted_right (edges num_bins) v.

(** The weight [np.bincount] accumulates in [out[n]]: the sum of the
    [w[i]] with [x[i] = n], as an integer. *)
Fixpoint tally (x : list nat) (w : list Z) (n : nat) : Z :=
  match x, w with
  | i :: x', wi :: w' => ((if (i =? n)%nat then wi else 0) + tally x' w' n)%Z
  | _, _ => 0%Z
  end.

(** The alternate-allele frequency of a site: its entry in
    [variant_allele_frequency[:, 1]]. *)
Definition af_of (v : Variant) : Q := nth 1 (allele_frequency v) 0.

(** The site has an allele axis of length two or more. *)
Definition has_alt (v : Variant) : bool :=
  (2 <=? length (allele_frequency v))%nat.

Definition pRA_of (v : Variant) : Q := 2 * af_of v * (1 - af_of v).
Definition pAA_of (v : Variant) : Q := af_of v * af_of v.

(** What one site adds to bin [k] of the table. *)
Definition site_weight (num_bins : Z) (v : Variant) (k : nat) : Z :=
  ((if (bin_index num_bins (pRA_of v) =? S k)%nat then n_het v else 0)
   + (if (bin_index num_bins (pAA_of v) =? S k)%nat then n_hom_alt v else 0))%Z.

(** What a dataset adds to bin [k]. *)
Fixpoint bin_weight (num_bins : Z) (ds : Dataset) (k : nat) : Z :=
  match ds with
  | [] => 0%Z
  | v :: rest => (site_weight num_bins v k + bin_weight num_bins rest k)%Z
  end.

(** The table returned when no value reaches the widened last edge. *)
Definition table (num_bins : Z) (ds : Dataset) : pd.DataFrame :=
  pd.mkDataFrame
    (but_last (edges num_bins))
    (from_1 (edges num_bins))
    (map (bin_weight num_bins ds) (seq 0 (Z.to_nat num_bins))).



(** The site's [pAA] stays below the widened last edge. *)
Definition below_top (v : Variant) : bool :=
  negb (Qle_bool (1.0 + 0.01) (pAA_of v)).

(** A record of the data model: an alternate-allele frequency in [0, 1] and
    two non-negative counts. *)
Definition valid_site (v : Variant) : bool :=
  has_alt v
  && Qle_bool 0 (af_of v) && Qle_bool (af_of v) 1
  && (0 <=? n_het v)%Z && (0 <=? n_hom_alt v)%Z.

Definition valid_input (ds : Dataset) : bool := forallb valid_site ds.







(** The size a regular file has, 0 for a directory or a special file. *)
Definition file_size_of (n : node) : N :=
  match n with
  | File s => s
  | _ => 0%N
  end.

(** The sizes of the regular files below a node, added up along the tree. *)
Fixpoint files_below (n : node) : N :=
  match n with
  | Directory _ es =>
      fold_right (fun e acc => (file_size_of e + files_below e + acc)%N) 0%N es
  | _ => 0%N
  end.

(** The same tree with the [st_size] of every directory and special file set
    to 0. *)
Fixpoint without_directory_sizes (n : node) : node :=
  match n with
  | File s => File s
  | Directory _ es => Directory 0 (map without_directory_sizes es)
  | Special _ => Special 0
  end.


(** A token of [split]: not empty and free of whitespace. *)
Definition is_token (t : str) : bool :=
  negb (Nat.eqb (length t) 0) && forallb (fun c => negb (isspace c)) t.

(** A run of whitespace. *)
Definition is_blank (s : str) : bool := forallb isspace s.

(** A stand-in for the syntax of Python floats, to instantiate [float] and
    the f-string conversion: the non-negative integers in decimal. *)
Fixpoint decimal_codes (u : Decimal.uint) : str :=
  match u with
  | Decimal.Nil => []
  | Decimal.D0 u => 48%N :: decimal_codes u
  | Decimal.D1 u => 49%N :: decimal_codes u
  | Decimal.D2 u => 50%N :: decimal_codes u
  | Decimal.D3 u => 51%N :: decimal_codes u
  | Decimal.D4 u => 52%N :: decimal_codes u
  | Decimal.D5 u => 53%N :: decimal_codes u
  | Decimal.D6 u => 54%N :: decimal_codes u
  | Decimal.D7 u => 55%N :: decimal_codes u
  | Decimal.D8 u => 56%N :: decimal_codes u
  | Decimal.D9 u => 57%N :: decimal_codes u
  end.

Definition decimal_of_N (n : N) : str := decimal_codes (N.to_uint n).

Definition N_of_decimal (s : str) : option N :=
  match s with
  | [] => None
  | _ =>
      fold_left
        (fun acc c =>
           match acc with
           | Some a =>
               if ((48 <=? c) && (c <=? 57))%N
               then Some (10 * a + (c - 48))%N
               else None
           | None => None
           end)
        s (Some 0%N)
  end.

(** What [du] returns. *)
Definition du_size (p : Path) : N :=
  match p with
  | Some n => (file_size_of n + files_below n)%N
  | None => 0%N
  end.

(** The row [file_size] appends for one entry of [tmap]. *)
Definition row_of (ts : TreeSequence) (ds : SgkitDataset)
           (item : string * Path) : Row :=
  mkRow (np.trunc (sequence_length ts)) (samples_shape0 ds) (num_sites ts)
        (fst item) (du_size (snd item)).

(** Both files of the source load and the three assertions hold. *)
Definition consistent (src : Source) : bool :=
  match load_ts src, load_ds src with
  | Returns ts, Returns ds =>
      (num_samples ts / 2 =? samples_shape0 ds)%Z
      && (num_sites ts =? Z.of_nat (length (variant_position ds)))%Z
      && array_equal (variant_position ds) (map np.trunc (sites_position ts))
  | _, _ => false
  end.

(** The five rows of a consistent source. *)
Definition rows_of_source (src : Source) : list Row :=
  match load_ts src, load_ds src with
  | Returns ts, Returns ds => map (row_of ts ds) (tmap src)
  | _, _ => []
  end.

(** The exception an inconsistent source ends the run with. *)
Definition failure_of (src : Source) : error :=
  match load_ts src with
  | Raises e => e
  | Returns _ =>
      match load_ds src with
      | Raises e => e
      | Returns _ => AssertionError
      end
  end.

(** The table of line 217 for the rows collected so far. *)
Definition table_of (rows : list Row) : Table :=
  sort_values (DataFrame_of_rows rows).

(** The content of the output file after the run: the last table written,
    if any. *)
Definition csv_file (evs : list event) : option Table :=
  fold_left (fun file e => match e with ToCsv t => Some t | _ => file end)
            evs None.

(** [b] does not come before [a] in the order of the sort. *)
Definition in_order (a b : nat * Row) : Prop :=
  row_ltb (snd b) (snd a) = false.

(** The events of the loops: echoes and writes of the output file. *)
Definition is_echo_or_csv (e : event) : bool :=
  match e with
  | Echo _ _ _ | ToCsv _ => true
  | _ => false
  end.

Definition quiet (evs : list event) : Prop :=
  forallb is_echo_or_csv evs = true.

(** What holds between two statements of the loops: the output file holds
    the table [df], which is the table of [data]; before the first write [df]
    is unbound and [data] is empty; nothing was skipped or printed. *)
Definition in_step (st : state) : Prop :=
  csv_file (fs_events st) = fs_df st /\
  match fs_df st with
  | None => fs_data st = []
  | Some t => t = table_of (fs_data st) /\ fs_data st <> []
  end /\
  quiet (fs_events st).

(** * Properties *)

(** ** Lists *)

Section ListFacts.

Context {A : Type}.

Lemma set_last_snoc (xs : list A) (x v : A) :
  set_last (xs ++ [x]) v = xs ++ [v].
Proof.
  induction xs as [|y ys IH]; [reflexivity|].
  simpl. rewrite IH. destruct ys; reflexivity.
Qed.

Lemma but_last_snoc (xs : list A) (x : A) : but_last (xs ++ [x]) = xs.
Proof. unfold but_last. apply removelast_last. Qed.

Lemma from_1_length (xs : list A) : length (from_1 xs) = (length xs - 1)%nat.
Proof. destruct xs; simpl; lia. Qed.

Lemma nth_from_1 (xs : list A) (k : nat) (d : A) :
  nth k (from_1 xs) d = nth (S k) xs d.
Proof. destruct xs; [destruct k|]; reflexivity. Qed.

Lemma nth_but_last_snoc (xs : list A) (x d : A) (k : nat) :
  (k < length xs)%nat -> nth k (but_last (xs ++ [x])) d = nth k (xs ++ [x]) d.
Proof. intros Hk. rewrite but_last_snoc, app_nth1; auto. Qed.

End ListFacts.

(** ** The bin edges *)

Lemma bin_edges_pos (num_bins : Z) :
  (1 <= num_bins)%Z -> bin_edges num_bins = Ok (edges num_bins).
Proof.
  intros Hn. unfold bin_edges, np.linspace, edges.
  replace (num_bins + 1 <? 0)%Z with false by lia.
  replace (num_bins + 1 - 1)%Z with num_bins by lia.
  replace (0 <? num_bins)%Z with true by lia.
  replace (1 <? num_bins + 1)%Z with true by lia.
  replace (Z.to_nat (num_bins + 1)) with (S (Z.to_nat num_bins)) by lia.
  rewrite !map_map, seq_S, map_app. cbn [map]. rewrite set_last_snoc. cbn [bind].
  unfold incr_last.
  destruct (map _ (seq 0 (Z.to_nat num_bins)) ++ [1.0]) eqn:E.
  - destruct (map _ (seq 0 (Z.to_nat num_bins))); discriminate.
  - rewrite <- E, last_last, set_last_snoc. reflexivity.
Qed.

Lemma bin_edges_zero : bin_edges 0 = Ok [0 * (1.0 - 0) + 0 + 0.01].
Proof. reflexivity. Qed.

Lemma bin_edges_minus_one : bin_edges (-1) = Raise IndexError.
Proof. reflexivity. Qed.

Lemma bin_edges_negative (num_bins : Z) :
  (num_bins < -1)%Z -> bin_edges num_bins = Raise ValueError.
Proof.
  intros Hn. unfold bin_edges, np.linspace.
  replace (num_bins + 1 <? 0)%Z with true by lia. reflexivity.
Qed.

Lemma edges_length (num_bins : Z) :
  length (edges num_bins) = S (Z.to_nat num_bins).
Proof. unfold edges. rewrite length_app, length_map, length_seq. simpl. lia. Qed.

Lemma inject_Z_pos (n : Z) : (1 <= n)%Z -> 0 < inject_Z n.
Proof. intros Hn. unfold Qlt, inject_Z. simpl. lia. Qed.

Lemma grid_value (num_bins : Z) (i : nat) :
  (1 <= num_bins)%Z ->
  grid num_bins i == inject_Z (Z.of_nat i) / inject_Z num_bins.
Proof.
  intros Hn. unfold grid. field.
  intros H. pose proof (inject_Z_pos num_bins Hn). lra.
Qed.

Lemma grid_0 (num_bins : Z) : grid num_bins 0 == 0.
Proof. unfold grid. simpl. ring. Qed.

Lemma grid_lt (num_bins : Z) (i j : nat) :
  (1 <= num_bins)%Z -> (i < j)%nat -> grid num_bins i < grid num_bins j.
Proof.
  intros Hn Hij. unfold grid.
  assert (Hd : 0 < (1.0 - 0) / inject_Z num_bins).
  { apply Qlt_shift_div_l; [apply inject_Z_pos; assumption | lra]. }
  assert (Hi : inject_Z (Z.of_nat i) < inject_Z (Z.of_nat j))
    by (rewrite <- Zlt_Qlt; lia).
  nra.
Qed.

Lemma grid_top (num_bins : Z) :
  (1 <= num_bins)%Z -> grid num_bins (Z.to_nat num_bins) == 1.
Proof.
  intros Hn. rewrite grid_value by assumption.
  rewrite Z2Nat.id by lia. field.
  intros H. pose proof (inject_Z_pos num_bins Hn). lra.
Qed.

Lemma nth_edges_grid (num_bins : Z) (i : nat) :
  (i < Z.to_nat num_bins)%nat -> nth i (edges num_bins) 0 = grid num_bins i.
Proof.
  intros Hi. unfold edges.
  rewrite app_nth1 by (rewrite length_map, length_seq; lia).
  rewrite nth_indep with (d' := grid num_bins 0)
    by (rewrite length_map, length_seq; lia).
  rewrite map_nth, seq_nth by lia. reflexivity.
Qed.

Lemma nth_edges_top (num_bins : Z) :
  nth (Z.to_nat num_bins) (edges num_bins) 0 = 1.0 + 0.01.
Proof.
  unfold edges. rewrite app_nth2; rewrite length_map, length_seq; [|lia].
  rewrite Nat.sub_diag. reflexivity.
Qed.

Lemma edges_increasing (num_bins : Z) (i j : nat) :
  (1 <= num_bins)%Z -> (i < j <= Z.to_nat num_bins)%nat ->
  nth i (edges num_bins) 0 < nth j (edges num_bins) 0.
Proof.
  intros Hn [Hij Hj]. rewrite (nth_edges_grid num_bins i) by lia.
  destruct (Nat.eq_dec j (Z.to_nat num_bins)) as [->|Hne].
  - rewrite nth_edges_top.
    assert (grid num_bins i < grid num_bins (Z.to_nat num_bins))
      by (apply grid_lt; assumption).
    pose proof (grid_top num_bins Hn). lra.
  - rewrite nth_edges_grid by lia. apply grid_lt; assumption.
Qed.

(** ** Digitizing against the bin edges *)

Lemma nondecreasing_adjacent (l : list Q) :
  (forall i, (S i < length l)%nat -> nth i l 0 <= nth (S i) l 0) ->
  np.nondecreasing l = true.
Proof.
  induction l as [|b rest IH]; intros H; [reflexivity|].
  destruct rest as [|c r]; [reflexivity|].
  change (Qle_bool b c && np.nondecreasing (c :: r) = true).
  apply andb_true_intro. split.
  - apply Qle_bool_iff. apply (H O). simpl. lia.
  - apply IH. intros i Hi. apply (H (S i)). simpl in *. lia.
Qed.

Lemma searchsorted_right_spec (l : list Q) (v : Q) :
  (np.searchsorted_right l v <= length l)%nat /\
  (forall i, (i < np.searchsorted_right l v)%nat -> nth i l 0 <= v) /\
  ((np.searchsorted_right l v < length l)%nat ->
   v < nth (np.searchsorted_right l v) l 0).
Proof.
  induction l as [|e rest [IH1 [IH2 IH3]]]; simpl.
  - repeat split; intros; lia.
  - destruct (Qle_bool e v) eqn:E.
    + apply Qle_bool_iff in E. repeat split.
      * lia.
      * intros [|i] Hi; [assumption | apply IH2; lia].
      * intros Hk. apply IH3. lia.
    + repeat split; try (intros; lia).
      intros _. apply Qnot_le_lt. intros Hle.
      apply Qle_bool_iff in Hle. congruence.
Qed.

Lemma searchsorted_right_unique (l : list Q) (v : Q) (k : nat) :
  (k <= length l)%nat ->
  (forall i, (i < k)%nat -> nth i l 0 <= v) ->
  ((k < length l)%nat -> v < nth k l 0) ->
  np.searchsorted_right l v = k.
Proof.
  revert k. induction l as [|e rest IH]; intros k Hk Hle Hlt; simpl in *.
  - lia.
  - destruct k as [|k].
    + assert (Hv : v < e) by (apply Hlt; lia).
      destruct (Qle_bool e v) eqn:E; [|reflexivity].
      apply Qle_bool_iff in E. lra.
    + assert (E : Qle_bool e v = true)
        by (apply Qle_bool_iff; apply (Hle O); lia).
      rewrite E. f_equal. apply IH.
      * lia.
      * intros i Hi. apply (Hle (S i)). lia.
      * intros Hk'. apply Hlt. lia.
Qed.

Lemma edges_nondecreasing (num_bins : Z) :
  (1 <= num_bins)%Z -> np.nondecreasing (edges num_bins) = true.
Proof.
  intros Hn. apply nondecreasing_adjacent. intros i Hi.
  rewrite edges_length in Hi. apply Qlt_le_weak.
  apply edges_increasing; [assumption | lia].
Qed.

Lemma digitize_edges (num_bins : Z) (x : list Q) :
  (1 <= num_bins)%Z ->
  np.digitize x (edges num_bins)
  = Ok (map (np.searchsorted_right (edges num_bins)) x).
Proof.
  intros Hn. unfold np.digitize, np.monotonicity.
  rewrite edges_nondecreasing by assumption. reflexivity.
Qed.

Lemma bin_index_le (num_bins : Z) (v : Q) :
  (bin_index num_bins v <= S (Z.to_nat num_bins))%nat.
Proof.
  unfold bin_index.
  pose proof (searchsorted_right_spec (edges num_bins) v) as [H _].
  rewrite edges_length in H. exact H.
Qed.

Lemma nth_edges_0 (num_bins : Z) :
  (1 <= num_bins)%Z -> nth 0 (edges num_bins) 0 == 0.
Proof. intros Hn. rewrite nth_edges_grid by lia. apply grid_0. Qed.



Lemma bin_index_in_range (num_bins : Z) (v : Q) :
  v < 1.0 + 0.01 -> (bin_index num_bins v <= Z.to_nat num_bins)%nat.
Proof.
  intros Hv. unfold bin_index.
  pose proof (searchsorted_right_spec (edges num_bins) v) as [H1 [H2 _]].
  rewrite edges_length in H1.
  destruct (Nat.eq_dec (np.searchsorted_right (edges num_bins) v)
                       (S (Z.to_nat num_bins))) as [E|E]; [|lia].
  exfalso. assert (Hle : nth (Z.to_nat num_bins) (edges num_bins) 0 <= v)
    by (apply H2; lia).
  rewrite nth_edges_top in Hle. lra.
Qed.

Lemma bin_index_above (num_bins : Z) (v : Q) :
  (1 <= num_bins)%Z -> 1.0 + 0.01 <= v ->
  bin_index num_bins v = S (Z.to_nat num_bins).
Proof.
  intros Hn Hv. unfold bin_index. apply searchsorted_right_unique.
  - rewrite edges_length. lia.
  - intros i Hi.
    destruct (Nat.eq_dec i (Z.to_nat num_bins)) as [->|Hne].
    + rewrite nth_edges_top. assumption.
    + assert (nth i (edges num_bins) 0
              < nth (Z.to_nat num_bins) (edges num_bins) 0)
        by (apply edges_increasing; [assumption | lia]).
      rewrite nth_edges_top in *. lra.
  - rewrite edges_length. lia.
Qed.



(** ** Weighted counting *)

Lemma add_at_length (i : nat) (w : Q) (out : list Q) :
  length (np.add_at i w out) = length out.
Proof.
  revert i. induction out as [|o rest IH]; intros [|i]; simpl; auto.
Qed.

Lemma nth_add_at (i n : nat) (w : Q) (out : list Q) :
  (n < length out)%nat ->
  nth n (np.add_at i w out) 0
  == nth n out 0 + (if (i =? n)%nat then w else 0).
Proof.
  revert i n. induction out as [|o rest IH]; intros i n Hn; simpl in Hn.
  - lia.
  - destruct i as [|i], n as [|n]; simpl; try ring.
    apply IH. lia.
Qed.

Lemma accumulate_length (xw : list (nat * Z)) (out : list Q) :
  length (fold_left np.accumulate xw out) = length out.
Proof.
  revert out. induction xw as [|p xw IH]; intros out; simpl; [reflexivity|].
  rewrite IH. apply add_at_length.
Qed.

Lemma nth_accumulate (x : list nat) (w : list Z) (out : list Q) (n : nat) :
  (n < length out)%nat ->
  nth n (fold_left np.accumulate (combine x w) out) 0
  == nth n out 0 + inject_Z (tally x w n).
Proof.
  revert w out. induction x as [|i x IH]; intros w out Hn.
  - simpl. unfold inject_Z. ring.
  - destruct w as [|wi w].
    + simpl. unfold inject_Z. ring.
    + simpl. rewrite IH by (unfold np.accumulate; rewrite add_at_length; exact Hn).
      unfold np.accumulate. simpl. rewrite nth_add_at by exact Hn.
      rewrite inject_Z_plus. destruct (i =? n)%nat; ring.
Qed.

Lemma nth_repeat_0 (n size : nat) : nth n (repeat 0 size) 0 = 0.
Proof.
  revert n. induction size as [|s IH]; intros [|n]; simpl; auto.
Qed.

Lemma bincount_spec (x : list nat) (w : list Z) (minlength : Z) :
  length w = length x -> (0 <= minlength)%Z ->
  exists out,
    np.bincount x w minlength = Ok out /\
    length out = np.bincount_size x minlength /\
    forall n, (n < length out)%nat -> nth n out 0 == inject_Z (tally x w n).
Proof.
  intros Hlen Hmin. unfold np.bincount.
  rewrite Hlen, Nat.eqb_refl. simpl negb. cbv iota.
  replace (minlength <? 0)%Z with false by lia.
  eexists. split; [reflexivity|]. split.
  - rewrite accumulate_length, repeat_length. reflexivity.
  - intros n Hn. rewrite accumulate_length in Hn.
    rewrite nth_accumulate by exact Hn.
    rewrite nth_repeat_0. ring.
Qed.

Lemma bincount_size_fit (x : list nat) (minlength : Z) :
  Forall (fun i => (i < Z.to_nat minlength)%nat) x ->
  np.bincount_size x minlength = Z.to_nat minlength.
Proof.
  intros H. unfold np.bincount_size. destruct x as [|i x]; [reflexivity|].
  assert (list_max (i :: x) + 1 <= Z.to_nat minlength)%nat; [|lia].
  assert (Hm : (list_max (i :: x) <= Z.to_nat minlength - 1)%nat).
  { apply list_max_le. eapply Forall_impl; [|exact H].
    simpl. intros; lia. }
  inversion H; subst. lia.
Qed.

Lemma bincount_size_overflow (x : list nat) (minlength : Z) :
  Forall (fun i => (i <= Z.to_nat minlength)%nat) x ->
  Exists (fun i => i = Z.to_nat minlength) x ->
  np.bincount_size x minlength = S (Z.to_nat minlength).
Proof.
  intros Hle Hex. unfold np.bincount_size.
  destruct x as [|i x]; [inversion Hex|].
  assert (H1 : (list_max (i :: x) <= Z.to_nat minlength)%nat)
    by (apply list_max_le; exact Hle).
  assert (H2 : (Z.to_nat minlength <= list_max (i :: x))%nat).
  { apply Exists_exists in Hex as [j [Hj ->]].
    pose proof (proj1 (list_max_le (i :: x) (list_max (i :: x)))
                      (Nat.le_refl _)) as Hall.
    rewrite Forall_forall in Hall. apply Hall. exact Hj. }
  lia.
Qed.

(** ** Adding and truncating *)

Lemma trunc_inject_Z (q : Q) (z : Z) : q == inject_Z z -> np.trunc q = z.
Proof.
  unfold Qeq, inject_Z, np.trunc. simpl. intros H.
  rewrite Z.mul_1_r in H. rewrite H. apply Z.quot_mul. lia.
Qed.

Lemma add_same_length (a b : list Q) :
  length a = length b ->
  np.add a b = Ok (map (fun p => fst p + snd p) (combine a b)).
Proof. intros H. unfold np.add. rewrite H, Nat.eqb_refl. reflexivity. Qed.

Lemma add_mismatch (a b : list Q) :
  length a <> length b -> (2 <= length a)%nat -> (2 <= length b)%nat ->
  np.add a b = Raise ValueError.
Proof.
  intros Hne Ha Hb. unfold np.add.
  apply Nat.eqb_neq in Hne. rewrite Hne.
  destruct a as [|x [|x' a]]; simpl in Ha; try lia.
  destruct b as [|y [|y' b]]; simpl in Hb; try lia.
  reflexivity.
Qed.

Lemma nth_sum (a b : list Q) (n : nat) :
  length a = length b -> (n < length a)%nat ->
  nth n (map (fun p => fst p + snd p) (combine a b)) 0
  = nth n a 0 + nth n b 0.
Proof.
  intros Hlen Hn. set (f := fun p : Q * Q => fst p + snd p).
  rewrite nth_indep with (d' := f (0, 0))
    by (rewrite length_map, length_combine; lia).
  rewrite map_nth, combine_nth by exact Hlen. reflexivity.
Qed.

Lemma map_seq_ext {A : Type} (l : list A) (f : nat -> A) (d : A) :
  (forall k, (k < length l)%nat -> nth k l d = f k) ->
  l = map f (seq 0 (length l)).
Proof.
  intros H. apply nth_ext with (d := d) (d' := f O).
  - rewrite length_map, length_seq. reflexivity.
  - intros k Hk. rewrite H by exact Hk.
    rewrite map_nth, seq_nth by exact Hk. reflexivity.
Qed.

(** Lines 81-85 on two index arrays that stay below [size]: bin [k] of the
    table holds the het weights with index [k + 1] plus the hom weights with
    index [k + 1]. *)
Lemma count_closed_form (xa xb : list nat) (wa wb : list Z) (minlength : Z) :
  length wa = length xa -> length wb = length xb -> (0 <= minlength)%Z ->
  np.bincount_size xa minlength = np.bincount_size xb minlength ->
  exists a b ab,
    np.bincount xa wa minlength = Ok a /\
    np.bincount xb wb minlength = Ok b /\
    np.add a b = Ok ab /\
    from_1 (np.astype_int ab)
    = map (fun k => (tally xa wa (S k) + tally xb wb (S k))%Z)
          (seq 0 (np.bincount_size xa minlength - 1)).
Proof.
  intros Ha Hb Hmin Hsize.
  destruct (bincount_spec xa wa minlength Ha Hmin) as [a [Ea [La Na]]].
  destruct (bincount_spec xb wb minlength Hb Hmin) as [b [Eb [Lb Nb]]].
  assert (Lab : length a = length b) by congruence.
  exists a, b, (map (fun p => fst p + snd p) (combine a b)).
  repeat split; try assumption.
  - apply add_same_length. exact Lab.
  - set (l := from_1 _).
    assert (Ll : length l = (np.bincount_size xa minlength - 1)%nat).
    { unfold l, np.astype_int.
      rewrite from_1_length, !length_map, length_combine. lia. }
    rewrite <- Ll. apply map_seq_ext with (d := np.trunc 0).
    intros k Hk. unfold l, np.astype_int.
    rewrite nth_from_1, map_nth.
    apply trunc_inject_Z. rewrite nth_sum by (try exact Lab; lia).
    rewrite Na, Nb by lia. rewrite inject_Z_plus. reflexivity.
Qed.

(** ** The table [get_prob_dist] returns *)

Lemma column_1 (ds : Dataset) :
  forallb has_alt ds = true ->
  column 1 (variant_allele_frequency ds) = Ok (map af_of ds).
Proof.
  induction ds as [|v ds IH]; intros H; [reflexivity|].
  simpl in H. apply andb_prop in H as [Hv Hds].
  unfold variant_allele_frequency in *. simpl.
  unfold has_alt in Hv. apply Nat.leb_le in Hv.
  unfold af_of at 1.
  destruct (allele_frequency v) as [|p0 [|p1 r]]; simpl in Hv; try lia.
  simpl. rewrite IH by exact Hds. reflexivity.
Qed.

Lemma column_1_missing (ds : Dataset) :
  forallb has_alt ds = false ->
  column 1 (variant_allele_frequency ds) = Raise IndexError.
Proof.
  induction ds as [|v ds IH]; intros H; [discriminate|].
  simpl in H. unfold variant_allele_frequency in *. cbn [map column].
  destruct (has_alt v) eqn:Hv.
  - simpl in H. rewrite IH by exact H.
    destruct (nth_error (allele_frequency v) 1); reflexivity.
  - unfold has_alt in Hv. apply Nat.leb_gt in Hv.
    destruct (allele_frequency v) as [|p0 [|p1 r]]; simpl in Hv; try lia;
      reflexivity.
Qed.

Lemma tally_bin_weight (num_bins : Z) (ds : Dataset) (k : nat) :
  Z.add
    (tally (map (bin_index num_bins)
                (map (fun p => 2 * p * (1 - p)) (map af_of ds)))
           (variant_n_het ds) (S k))
    (tally (map (bin_index num_bins) (map (fun p => p * p) (map af_of ds)))
           (variant_n_hom_alt ds) (S k))
  = bin_weight num_bins ds k.
Proof.
  induction ds as [|v ds IH]; [reflexivity|].
  simpl. rewrite <- IH. unfold site_weight, pRA_of, pAA_of. lia.
Qed.

Lemma pRA_below_top (p : Q) : 2 * p * (1 - p) < 1.0 + 0.01.
Proof. nra. Qed.

Lemma get_prob_dist_table (ds : Dataset) (num_bins : Z) :
  (1 <= num_bins)%Z ->
  forallb has_alt ds = true ->
  Forall (fun v => pAA_of v < 1.0 + 0.01) ds ->
  get_prob_dist ds num_bins = Ok (table num_bins ds).
Proof.
  intros Hn Hshape Hrange. unfold get_prob_dist.
  rewrite bin_edges_pos by exact Hn. cbn [bind].
  rewrite column_1 by exact Hshape. cbn [bind].
  rewrite !digitize_edges by exact Hn. cbn [bind].
  set (xa := map _ (map (fun p => 2 * p * (1 - p)) _)).
  set (xb := map _ (map (fun p => p * p) _)).
  assert (Fa : Forall (fun i => (i < Z.to_nat (num_bins + 1))%nat) xa).
  { unfold xa. rewrite !Forall_map. apply Forall_forall. intros v _.
    pose proof (bin_index_in_range num_bins _ (pRA_below_top (af_of v))).
    unfold bin_index in *. lia. }
  assert (Fb : Forall (fun i => (i < Z.to_nat (num_bins + 1))%nat) xb).
  { unfold xb. rewrite !Forall_map. eapply Forall_impl; [|exact Hrange].
    intros v Hv. pose proof (bin_index_in_range num_bins _ Hv).
    unfold bin_index, pAA_of in *. lia. }
  destruct (count_closed_form xa xb (variant_n_het ds) (variant_n_hom_alt ds)
              (num_bins + 1)) as [a [b [ab [Ea [Eb [Eab Ec]]]]]].
  - unfold xa, variant_n_het. rewrite !length_map. reflexivity.
  - unfold xb, variant_n_hom_alt. rewrite !length_map. reflexivity.
  - lia.
  - rewrite !bincount_size_fit by assumption. reflexivity.
  - rewrite Ea. cbn [bind]. rewrite Eb. cbn [bind]. rewrite Eab. cbn [bind].
    rewrite Ec, bincount_size_fit by assumption.
    replace (Z.to_nat (num_bins + 1) - 1)%nat with (Z.to_nat num_bins) by lia.
    unfold pd.DataFrame_of.
    assert (L1 : length (but_last (edges num_bins)) = Z.to_nat num_bins).
    { unfold edges. rewrite but_last_snoc, length_map, length_seq.
      reflexivity. }
    assert (L2 : length (from_1 (edges num_bins)) = Z.to_nat num_bins).
    { rewrite from_1_length, edges_length. lia. }
    rewrite L1, L2, length_map, length_seq, Nat.eqb_refl. cbn [andb].
    unfold table. f_equal. f_equal. apply map_ext. intros k.
    unfold xa, xb. apply tally_bin_weight.
Qed.

(** A value at or beyond the widened last edge makes the two count arrays
    differ in length, and their sum is rejected. *)
Lemma get_prob_dist_overflow (ds : Dataset) (num_bins : Z) :
  (1 <= num_bins)%Z ->
  forallb has_alt ds = true ->
  Exists (fun v => 1.0 + 0.01 <= pAA_of v) ds ->
  get_prob_dist ds num_bins = Raise ValueError.
Proof.
  intros Hn Hshape Hbig. unfold get_prob_dist.
  rewrite bin_edges_pos by exact Hn. cbn [bind].
  rewrite column_1 by exact Hshape. cbn [bind].
  rewrite !digitize_edges by exact Hn. cbn [bind].
  set (xa := map _ (map (fun p => 2 * p * (1 - p)) _)).
  set (xb := map _ (map (fun p => p * p) _)).
  assert (Sa : np.bincount_size xa (num_bins + 1) = Z.to_nat (num_bins + 1)).
  { apply bincount_size_fit.
    unfold xa. rewrite !Forall_map. apply Forall_forall. intros v _.
    pose proof (bin_index_in_range num_bins _ (pRA_below_top (af_of v))).
    unfold bin_index in *. lia. }
  assert (Sb : np.bincount_size xb (num_bins + 1) = S (Z.to_nat (num_bins + 1))).
  { apply bincount_size_overflow.
    - unfold xb. rewrite !Forall_map. apply Forall_forall. intros v _.
      pose proof (bin_index_le num_bins (af_of v * af_of v)).
      unfold bin_index in *. lia.
    - unfold xb. rewrite !Exists_map.
      eapply Exists_impl; [|exact Hbig].
      intros v Hv. cbv beta.
      pose proof (bin_index_above num_bins _ Hn Hv) as E.
      unfold bin_index, pAA_of in E. rewrite E. lia. }
  destruct (bincount_spec xa (variant_n_het ds) (num_bins + 1))
    as [a [Ea [La _]]].
  { unfold xa, variant_n_het. rewrite !length_map. reflexivity. }
  { lia. }
  destruct (bincount_spec xb (variant_n_hom_alt ds) (num_bins + 1))
    as [b [Eb [Lb _]]].
  { unfold xb, variant_n_hom_alt. rewrite !length_map. reflexivity. }
  { lia. }
  rewrite Ea. cbn [bind]. rewrite Eb. cbn [bind].
  rewrite add_mismatch by lia. reflexivity.
Qed.





(** ** What [get_prob_dist] does on every dataset, for [num_bins >= 1] *)

Lemma below_top_true (v : Variant) :
  below_top v = true <-> pAA_of v < 1.0 + 0.01.
Proof.
  unfold below_top. rewrite negb_true_iff. split.
  - intros E. apply Qnot_le_lt. intros H. apply Qle_bool_iff in H. congruence.
  - intros H. destruct (Qle_bool _ _) eqn:E; [|reflexivity].
    apply Qle_bool_iff in E. lra.
Qed.

Lemma below_top_false (v : Variant) :
  below_top v = false <-> 1.0 + 0.01 <= pAA_of v.
Proof.
  unfold below_top. rewrite negb_false_iff. apply Qle_bool_iff.
Qed.

Lemma forallb_false_Exists {A : Type} (f : A -> bool) (l : list A) :
  forallb f l = false -> Exists (fun x => f x = false) l.
Proof.
  induction l as [|x l IH]; simpl; [discriminate|].
  destruct (f x) eqn:E; simpl; intros H.
  - apply Exists_cons_tl. apply IH. exact H.
  - apply Exists_cons_hd. exact E.
Qed.

Lemma get_prob_dist_cases (ds : Dataset) (num_bins : Z) :
  (1 <= num_bins)%Z ->
  get_prob_dist ds num_bins
  = if forallb has_alt ds
    then if forallb below_top ds
         then Ok (table num_bins ds)
         else Raise ValueError
    else Raise IndexError.
Proof.
  intros Hn. destruct (forallb has_alt ds) eqn:Hshape.
  - destruct (forallb below_top ds) eqn:Hrange.
    + apply get_prob_dist_table; try assumption.
      rewrite forallb_forall in Hrange. apply Forall_forall.
      intros v Hv. apply below_top_true. apply Hrange. exact Hv.
    + apply get_prob_dist_overflow; try assumption.
      apply forallb_false_Exists in Hrange.
      eapply Exists_impl; [|exact Hrange].
      intros v Hv. apply below_top_false. exact Hv.
  - unfold get_prob_dist. rewrite bin_edges_pos by exact Hn. cbn [bind].
    rewrite column_1_missing by exact Hshape. reflexivity.
Qed.


(** ** Valid input *)

Lemma valid_site_spec (v : Variant) :
  valid_site v = true ->
  has_alt v = true /\ 0 <= af_of v /\ af_of v <= 1
  /\ (0 <= n_het v)%Z /\ (0 <= n_hom_alt v)%Z.
Proof.
  unfold valid_site. rewrite !andb_true_iff, !Qle_bool_iff, !Z.leb_le.
  tauto.
Qed.

Lemma valid_site_below_top (v : Variant) :
  valid_site v = true -> below_top v = true.
Proof.
  intros H. apply valid_site_spec in H as [_ [H0 [H1 _]]].
  apply below_top_true. unfold pAA_of. nra.
Qed.

Lemma valid_input_accepted (ds : Dataset) (num_bins : Z) :
  (1 <= num_bins)%Z -> valid_input ds = true ->
  get_prob_dist ds num_bins = Ok (table num_bins ds).
Proof.
  intros Hn Hv. rewrite get_prob_dist_cases by exact Hn.
  unfold valid_input in Hv. rewrite forallb_forall in Hv.
  replace (forallb has_alt ds) with true.
  - replace (forallb below_top ds) with true; [reflexivity|].
    symmetry. apply forallb_forall. intros v Hin.
    apply valid_site_below_top. apply Hv. exact Hin.
  - symmetry. apply forallb_forall. intros v Hin.
    apply (valid_site_spec v). apply Hv. exact Hin.
Qed.

(** ** Rows of the table *)

Lemma table_start_length (num_bins : Z) (ds : Dataset) :
  length (pd.start (table num_bins ds)) = Z.to_nat num_bins.
Proof.
  unfold table, edges. simpl.
  rewrite but_last_snoc, length_map, length_seq. reflexivity.
Qed.

Lemma table_stop_length (num_bins : Z) (ds : Dataset) :
  length (pd.stop (table num_bins ds)) = Z.to_nat num_bins.
Proof. unfold table. simpl. rewrite from_1_length, edges_length. lia. Qed.

Lemma table_count_length (num_bins : Z) (ds : Dataset) :
  length (pd.prob_dist (table num_bins ds)) = Z.to_nat num_bins.
Proof. unfold table. simpl. rewrite length_map, length_seq. reflexivity. Qed.

Lemma table_start_nth (num_bins : Z) (ds : Dataset) (k : nat) :
  (k < Z.to_nat num_bins)%nat ->
  nth k (pd.start (table num_bins ds)) 0 = nth k (edges num_bins) 0.
Proof.
  intros Hk. unfold table, edges. simpl.
  apply nth_but_last_snoc. rewrite length_map, length_seq. exact Hk.
Qed.

Lemma table_stop_nth (num_bins : Z) (ds : Dataset) (k : nat) :
  nth k (pd.stop (table num_bins ds)) 0 = nth (S k) (edges num_bins) 0.
Proof. unfold table. simpl. apply nth_from_1. Qed.




Lemma forallb_insert {A : Type} (f : A -> bool) (pre post : list A) (x : A) :
  forallb f (pre ++ x :: post) = f x && forallb f (pre ++ post).
Proof.
  rewrite !forallb_app. simpl.
  destruct (forallb f pre), (f x), (forallb f post); reflexivity.
Qed.


(** ** Bins as intervals *)






(** ** Sums over the rows *)







(** ** Where single values go *)




(** ** The call on a heap *)

Lemma preserves_refl (h : heap) : preserves h h.
Proof. intros r o H. exact H. Qed.

Lemma preserves_snoc (h : heap) (o : object) : preserves h (h ++ [o]).
Proof.
  intros r x H. rewrite nth_error_app1; [exact H|].
  apply nth_error_Some. congruence.
Qed.

Lemma put_snoc (h : heap) (o x : object) :
  put (length h) o (h ++ [x]) = h ++ [o].
Proof. induction h as [|y h IH]; simpl; [reflexivity | rewrite IH; reflexivity]. Qed.

Lemma contents_snoc (h : heap) (xs : list Q) :
  contents (h ++ [ArrayObj xs]) (length h) = xs.
Proof.
  unfold contents. rewrite nth_error_app2, Nat.sub_diag by lia. reflexivity.
Qed.

Lemma bind_lift {A B : Type} (r : result A) (k : A -> M B) (h : heap) :
  bindM (lift r) k h
  = match r with Ok a => k a h | Raise e => (Raise e, h) end.
Proof. unfold bindM, lift. destruct r; reflexivity. Qed.

(** The call returns what [get_prob_dist] computes from the dataset [ds]
    refers to, and leaves that dataset and every other object of the caller
    as it was. *)
Lemma get_prob_dist_on_heap_spec (h : heap) (r : nat) (ds : Dataset)
      (num_bins : Z) :
  nth_error h r = Some (DatasetObj ds) ->
  exists h',
    get_prob_dist_on_heap r num_bins h = (get_prob_dist ds num_bins, h') /\
    preserves h h'.
Proof.
  intros Hds. unfold get_prob_dist_on_heap, get_prob_dist, bin_edges.
  rewrite bind_lift.
  destruct (np.linspace 0 1.0 (num_bins + 1)) as [y|e]; cbn [bind];
    [|eexists; split; [reflexivity | apply preserves_refl]].
  unfold bindM at 1. unfold new_array at 1. cbv iota beta.
  unfold bindM at 1. unfold incr_last_in_place at 1.
  rewrite contents_snoc.
  destruct (incr_last y 0.01) as [bins|e]; cbn [bind];
    [|eexists; split; [reflexivity | apply preserves_snoc]].
  rewrite put_snoc. set (h' := h ++ [ArrayObj bins]).
  assert (Hds' : nth_error h' r = Some (DatasetObj ds))
    by (apply preserves_snoc; exact Hds).
  assert (Hbins : contents h' (length h) = bins) by apply contents_snoc.
  assert (Hkeep : preserves h h') by apply preserves_snoc.
  clearbody h'. exists h'. split; [|exact Hkeep].
  unfold bindM, dataset, lift, ret, read. cbv beta.
  repeat (rewrite Hds'; cbv beta iota).
  destruct (column 1 (variant_allele_frequency ds)) as [af|e]; cbn [bind];
    [|reflexivity].
  repeat (rewrite Hds'; cbv beta iota). rewrite !Hbins.
  repeat match goal with
         | |- context [match ?c with Ok _ => _ | Raise _ => _ end] =>
             destruct c; cbn [bind]; [|reflexivity]
         end.
  reflexivity.
Qed.

(** * The claims *)







(** C3. For every valid input and every [num_bins = N >= 1] the table has
    exactly [N] rows, in increasing order of [start]; consecutive rows share
    an edge ([row[i].stop] is [row[i+1].start]), every row has
    [start < stop], the first row starts at 0 and the last row stops at
    1.0 + 0.01, beyond 1.0. *)
Theorem coverage (ds : Dataset) (num_bins : Z) :
  (1 <= num_bins)%Z -> valid_input ds = true ->
  exists df,
    get_prob_dist ds num_bins = Ok df /\
    length (pd.start df) = Z.to_nat num_bins /\
    length (pd.stop df) = Z.to_nat num_bins /\
    length (pd.prob_dist df) = Z.to_nat num_bins /\
    (forall i j, (i < j < Z.to_nat num_bins)%nat ->
                 nth i (pd.start df) 0 < nth j (pd.start df) 0) /\
    (forall i, (S i < Z.to_nat num_bins)%nat ->
               nth i (pd.stop df) 0 = nth (S i) (pd.start df) 0) /\
    (forall i, (i < Z.to_nat num_bins)%nat ->
               nth i (pd.start df) 0 < nth i (pd.stop df) 0) /\
    nth 0 (pd.start df) 0 == 0 /\
    nth (Z.to_nat num_bins - 1) (pd.stop df) 0 == 1.0 + 0.01 /\
    1.0 <= nth (Z.to_nat num_bins - 1) (pd.stop df) 0.
Proof.
  intros Hn Hv. exists (table num_bins ds).
  split; [apply valid_input_accepted; assumption|].
  split; [apply table_start_length|].
  split; [apply table_stop_length|].
  split; [apply table_count_length|].
  assert (Htop : nth (Z.to_nat num_bins - 1) (pd.stop (table num_bins ds)) 0
                 = 1.0 + 0.01).
  { rewrite table_stop_nth.
    replace (S (Z.to_nat num_bins - 1)) with (Z.to_nat num_bins) by lia.
    apply nth_edges_top. }
  repeat split.
  - intros i j Hij. rewrite !table_start_nth by lia.
    apply edges_increasing; [assumption | lia].
  - intros i Hi. rewrite table_stop_nth, table_start_nth by lia. reflexivity.
  - intros i Hi. rewrite table_stop_nth, table_start_nth by lia.
    apply edges_increasing; [assumption | lia].
  - rewrite table_start_nth by lia. apply nth_edges_0. exact Hn.
  - rewrite Htop. reflexivity.
  - rewrite Htop. lra.
Qed.

Lemma coverage_witness :
  exists df,
    get_prob_dist [site 0.5 10 5; site 0.25 3 1] 10 = Ok df /\
    length (pd.start df) = 10%nat /\
    length (pd.stop df) = 10%nat /\
    length (pd.prob_dist df) = 10%nat /\
    (forall i j, (i < j < 10)%nat ->
                 nth i (pd.start df) 0 < nth j (pd.start df) 0) /\
    (forall i, (S i < 10)%nat ->
               nth i (pd.stop df) 0 = nth (S i) (pd.start df) 0) /\
    (forall i, (i < 10)%nat ->
               nth i (pd.start df) 0 < nth i (pd.stop df) 0) /\
    nth 0 (pd.start df) 0 == 0 /\
    nth 9 (pd.stop df) 0 == 1.0 + 0.01 /\
    1.0 <= nth 9 (pd.stop df) 0.
Proof.
  apply (coverage [site 0.5 10 5; site 0.25 3 1] 10); [lia | reflexivity].
Defined.










(** C9. The result of a call depends on the dataset and [num_bins] only: two
    calls on the same dataset and [num_bins] return the same result whatever
    else the heaps hold, a second call after the first returns what the first
    returned, that result is the value [get_prob_dist] computes, and the call
    leaves the dataset and every other object of the caller unchanged (the
    only in-place update is on the array [bins] it has just created). *)
Theorem pure_function (h1 h2 : heap) (r1 r2 : nat) (ds : Dataset)
        (num_bins : Z) :
  nth_error h1 r1 = Some (DatasetObj ds) ->
  nth_error h2 r2 = Some (DatasetObj ds) ->
  fst (get_prob_dist_on_heap r1 num_bins h1)
  = fst (get_prob_dist_on_heap r2 num_bins h2) /\
  fst (get_prob_dist_on_heap r1 num_bins
         (snd (get_prob_dist_on_heap r1 num_bins h1)))
  = fst (get_prob_dist_on_heap r1 num_bins h1) /\
  fst (get_prob_dist_on_heap r1 num_bins h1) = get_prob_dist ds num_bins /\
  preserves h1 (snd (get_prob_dist_on_heap r1 num_bins h1)).
Proof.
  intros H1 H2.
  destruct (get_prob_dist_on_heap_spec h1 r1 ds num_bins H1) as [h1' [E1 K1]].
  destruct (get_prob_dist_on_heap_spec h2 r2 ds num_bins H2) as [h2' [E2 _]].
  destruct (get_prob_dist_on_heap_spec h1' r1 ds num_bins (K1 _ _ H1))
    as [h1'' [E3 _]].
  rewrite E1, E2. cbn [fst snd]. rewrite E3. cbn [fst].
  repeat split. exact K1.
Qed.

Lemma pure_function_witness :
  fst (get_prob_dist_on_heap 1 10 [OtherObj 7; DatasetObj [site 0.5 10 5]])
  = fst (get_prob_dist_on_heap 0 10 [DatasetObj [site 0.5 10 5];
                                     ArrayObj [0.5]]) /\
  fst (get_prob_dist_on_heap 1 10
         (snd (get_prob_dist_on_heap 1 10
                 [OtherObj 7; DatasetObj [site 0.5 10 5]])))
  = fst (get_prob_dist_on_heap 1 10 [OtherObj 7; DatasetObj [site 0.5 10 5]]) /\
  fst (get_prob_dist_on_heap 1 10 [OtherObj 7; DatasetObj [site 0.5 10 5]])
  = get_prob_dist [site 0.5 10 5] 10 /\
  preserves [OtherObj 7; DatasetObj [site 0.5 10 5]]
            (snd (get_prob_dist_on_heap 1 10
                    [OtherObj 7; DatasetObj [site 0.5 10 5]])).
Proof.
  apply (pure_function [OtherObj 7; DatasetObj [site 0.5 10 5]]
           [DatasetObj [site 0.5 10 5]; ArrayObj [0.5]]
           1 0 [site 0.5 10 5] 10); reflexivity.
Defined.




(** * The concrete runs in binary64 arithmetic *)

(** One record with frequency 0.5 and ten bins: the same counts as in exact
    arithmetic, with the edges numpy prints (0.30000000000000004,
    0.6000000000000001 and 0.7000000000000001 among them; 5 * 0.1 is exactly
    0.5). *)
Example double_run_scenario :
  exists df,
    binary64.get_prob_dist [site 0.5 10 5] 10 = Ok df /\
    binary64.prob_dist df = [0; 0; 5; 0; 0; 10; 0; 0; 0; 0]%Z /\
    nth 5 (binary64.start df) (binary64.of_Z 0) = binary64.of_Q 0.5 /\
    nth 2 (binary64.start df) (binary64.of_Z 0) = binary64.of_Q 0.2.
Proof. eexists. split; [vm_compute; reflexivity|]. repeat split. Qed.

(** The same record with four bins: the edges 0.25, 0.5 and 0.75 are exact
    doubles, and the two values on an edge are counted in the higher row. *)
Example double_run_on_edges :
  exists df,
    binary64.get_prob_dist [site 0.5 10 5] 4 = Ok df /\
    binary64.start df = map binary64.of_Q [0; 0.25; 0.5; 0.75] /\
    binary64.prob_dist df = [0; 5; 10; 0]%Z.
Proof. eexists. split; [vm_compute; reflexivity|]. repeat split. Qed.

(** A negative frequency is processed, and so is [num_bins = 0] on a record
    with frequency 0. *)
Example double_run_out_of_range :
  (exists df,
      binary64.get_prob_dist [site (-0.5) 10 5] 4 = Ok df /\
      binary64.prob_dist df = [0; 5; 0; 0]%Z) /\
  binary64.get_prob_dist [site 0 10 5] 0 = Ok (binary64.mkDataFrame [] [] []).
Proof.
  split; [|vm_compute; reflexivity].
  eexists. split; [vm_compute; reflexivity | reflexivity].
Qed.

(** Frequencies -2 and 1.5 put pAA beyond the last edge: ValueError. *)
Example double_run_beyond_last_edge :
  binary64.get_prob_dist [site (-2) 10 5] 4 = Raise ValueError /\
  binary64.get_prob_dist [site 1.5 10 5] 10 = Raise ValueError.
Proof. split; vm_compute; reflexivity. Qed.

(** * Further properties of [get_prob_dist] *)




Lemma get_prob_dist_negative (ds : Dataset) (num_bins : Z) :
  (num_bins < 0)%Z -> get_prob_dist ds num_bins = get_prob_dist [] num_bins.
Proof.
  intros Hn. unfold get_prob_dist.
  destruct (Z.eq_dec num_bins (-1)) as [->|Hne]; [reflexivity|].
  rewrite bin_edges_negative by lia. reflexivity.
Qed.

Lemma get_prob_dist_no_alt (ds : Dataset) (num_bins : Z) :
  (0 <= num_bins)%Z -> forallb has_alt ds = false ->
  get_prob_dist ds num_bins = Raise IndexError.
Proof.
  intros Hn Hshape.
  destruct (Z.eq_dec num_bins 0) as [->|Hne].
  - unfold get_prob_dist. rewrite bin_edges_zero. cbn [bind].
    rewrite column_1_missing by exact Hshape. reflexivity.
  - rewrite get_prob_dist_cases by lia. rewrite Hshape. reflexivity.
Qed.










(** A site without a second allele column makes [variant_allele_frequency[:,
    1]] fail: for every [num_bins >= 0] the call raises IndexError, whatever
    the other sites are; for a negative [num_bins] the error of the bin edges
    comes first. *)
Theorem missing_alternate_allele (pre post : Dataset) (v : Variant)
        (num_bins : Z) :
  (length (allele_frequency v) < 2)%nat ->
  ((0 <= num_bins)%Z ->
   get_prob_dist (pre ++ v :: post) num_bins = Raise IndexError) /\
  ((num_bins < -1)%Z ->
   get_prob_dist (pre ++ v :: post) num_bins = Raise ValueError).
Proof.
  intros Hv. split.
  - intros Hn. apply get_prob_dist_no_alt; [exact Hn|].
    rewrite forallb_insert.
    replace (has_alt v) with false; [reflexivity|].
    symmetry. apply Nat.leb_gt. exact Hv.
  - intros Hn. rewrite get_prob_dist_negative by lia.
    unfold get_prob_dist. rewrite bin_edges_negative by exact Hn. reflexivity.
Qed.

Lemma missing_alternate_allele_witness :
  get_prob_dist ([site 0.5 10 5] ++ mkVariant [1] 3 0 :: []) 10
  = Raise IndexError.
Proof.
  apply (missing_alternate_allele [site 0.5 10 5] [] (mkVariant [1] 3 0) 10);
    simpl; lia.
Defined.




(** * File sizes *)

Lemma node_induction (P : node -> Prop) :
  (forall s, P (File s)) ->
  (forall s es, Forall P es -> P (Directory s es)) ->
  (forall s, P (Special s)) ->
  forall n, P n.
Proof.
  intros HF HD HS. fix IH 1. intros [s|s es|s].
  - apply HF.
  - apply HD. induction es as [|e es IHes]; constructor.
    + apply IH.
    + exact IHes.
  - apply HS.
Qed.

Lemma sum_file_sizes_app (acc : N) (l1 l2 : list Path) :
  sum_file_sizes acc (l1 ++ l2)
  = match sum_file_sizes acc l1 with
    | Returns a => sum_file_sizes a l2
    | Raises e => Raises e
    end.
Proof.
  revert acc. induction l1 as [|f l1 IH]; intros acc; simpl; [reflexivity|].
  destruct (is_file f); [|apply IH].
  destruct (get_file_size f); [apply IH | reflexivity].
Qed.

Lemma sum_file_sizes_descendants (n : node) :
  forall acc,
    sum_file_sizes acc (map Some (descendants n))
    = Returns (acc + files_below n)%N.
Proof.
  induction n as [s|s es IH|s] using node_induction; intros acc;
    try (cbn [descendants files_below map sum_file_sizes];
         rewrite N.add_0_r; reflexivity).
  cbn [descendants files_below]. revert acc.
  induction IH as [|e es He _ IHes]; intros acc.
  - cbn [flat_map fold_right map sum_file_sizes].
    rewrite N.add_0_r. reflexivity.
  - cbn [flat_map fold_right]. rewrite map_app, sum_file_sizes_app.
    cbn [app map sum_file_sizes].
    destruct e as [s'|s' es'|s']; cbn [is_file get_file_size stat_st_size];
      rewrite He; rewrite IHes; f_equal; cbn [file_size_of]; lia.
Qed.

Lemma du_value (n : node) :
  du (Some n) = Returns (file_size_of n + files_below n)%N.
Proof.
  destruct n as [s|s es|s].
  - cbn [du is_file get_file_size stat_st_size file_size_of files_below].
    rewrite N.add_0_r. reflexivity.
  - unfold du, get_dir_size, glob_all. cbn [is_file].
    rewrite sum_file_sizes_descendants. reflexivity.
  - reflexivity.
Qed.


(** [du] never raises, although [get_file_size] does on a missing path: a
    path that does not exist, or that is neither a regular file nor a
    directory, has size 0. *)
Theorem du_never_raises :
  (forall p, exists n, du p = Returns n) /\
  du None = Returns 0%N /\
  (forall s, du (Some (Special s)) = Returns 0%N) /\
  get_file_size None = Raises FileNotFoundError.
Proof.
  split; [|repeat split].
  intros [n|]; [|exists 0%N; reflexivity].
  eexists. apply du_value.
Qed.

Lemma files_below_without_directory_sizes (n : node) :
  files_below (without_directory_sizes n) = files_below n /\
  file_size_of (without_directory_sizes n) = file_size_of n.
Proof.
  induction n as [s|s es IH|s] using node_induction;
    try (split; reflexivity).
  split; [|reflexivity]. cbn [without_directory_sizes files_below].
  induction IH as [|e es [He1 He2] _ IHes]; simpl; [reflexivity|].
  rewrite He1, He2, IHes. reflexivity.
Qed.

(** Only regular files count: the [st_size] of the directories themselves
    and of special files, at any depth, has no influence on [du]. *)
Theorem du_counts_regular_files_only (n : node) :
  du (Some (without_directory_sizes n)) = du (Some n).
Proof.
  rewrite !du_value.
  destruct (files_below_without_directory_sizes n) as [-> ->]. reflexivity.
Qed.

(** * Timing a command *)

(** ** [str.split()] *)

Lemma split_from_word (w t s : str) :
  forallb (fun c => negb (isspace c)) t = true ->
  split_from (Some w) (t ++ s) = split_from (Some (w ++ t)) s.
Proof.
  revert w. induction t as [|c t IH]; intros w Ht.
  - rewrite app_nil_r. reflexivity.
  - cbn [forallb] in Ht. apply andb_prop in Ht as [Hc Ht].
    apply negb_true_iff in Hc. cbn [app split_from]. rewrite Hc.
    rewrite IH by exact Ht. rewrite <- app_assoc. reflexivity.
Qed.

Lemma split_from_token (t s : str) :
  is_token t = true -> split_from None (t ++ s) = split_from (Some t) s.
Proof.
  unfold is_token. intros H. apply andb_prop in H as [Hne Ht].
  destruct t as [|c t]; [discriminate|].
  cbn [forallb] in Ht. apply andb_prop in Ht as [Hc Ht].
  apply negb_true_iff in Hc. cbn [app split_from]. rewrite Hc.
  apply (split_from_word [c] t s Ht).
Qed.

Lemma split_from_blank (ws s : str) :
  is_blank ws = true -> split_from None (ws ++ s) = split_from None s.
Proof.
  unfold is_blank. induction ws as [|c ws IH]; intros H; [reflexivity|].
  cbn [forallb] in H. apply andb_prop in H as [Hc Hws].
  cbn [app split_from]. rewrite Hc. apply IH. exact Hws.
Qed.

Lemma split_from_separator (w ws s : str) :
  is_blank ws = true -> ws <> [] ->
  split_from (Some w) (ws ++ s) = w :: split_from None s.
Proof.
  intros H Hne. destruct ws as [|c ws]; [congruence|].
  unfold is_blank in H. cbn [forallb] in H. apply andb_prop in H as [Hc Hws].
  cbn [app split_from]. rewrite Hc. f_equal.
  apply split_from_blank. exact Hws.
Qed.

Lemma split_from_last (t : str) :
  is_token t = true -> split_from None t = [t].
Proof.
  intros H. rewrite <- (app_nil_r t) at 1.
  rewrite split_from_token by exact H. reflexivity.
Qed.

Lemma split_two (ws0 t1 sep t2 ws1 : str) :
  is_blank ws0 = true -> is_token t1 = true ->
  is_blank sep = true -> sep <> [] ->
  is_token t2 = true -> is_blank ws1 = true ->
  split (ws0 ++ t1 ++ sep ++ t2 ++ ws1) = [t1; t2].
Proof.
  intros H0 H1 Hs Hne H2 H3. unfold split.
  rewrite split_from_blank by exact H0.
  rewrite split_from_token by exact H1.
  rewrite split_from_separator by assumption.
  rewrite split_from_token by exact H2.
  destruct ws1 as [|c ws1]; [reflexivity|].
  rewrite <- (app_nil_r (c :: ws1)).
  rewrite split_from_separator by (try assumption; discriminate).
  reflexivity.
Qed.

Lemma split_three (t1 t2 t3 : str) :
  is_token t1 = true -> is_token t2 = true -> is_token t3 = true ->
  split (t1 ++ [32%N] ++ t2 ++ [32%N] ++ t3) = [t1; t2; t3].
Proof.
  intros H1 H2 H3. unfold split.
  rewrite split_from_token by exact H1.
  rewrite split_from_separator by (try reflexivity; discriminate).
  rewrite split_from_token by exact H2.
  rewrite split_from_separator by (try reflexivity; discriminate).
  rewrite split_from_last by exact H3. reflexivity.
Qed.

Section TimingFacts.

Variable F : Type.
Variable float_of_str : str -> option F.
Variable str_of_float : F -> str.

Lemma unpack_floats_returns (n : nat) (tokens : list str) (xs : list F) :
  unpack_floats F float_of_str n tokens = Returns xs ->
  length tokens = n /\
  Forall2 (fun t x => float_of_str t = Some x) tokens xs.
Proof.
  revert tokens xs. induction n as [|n IH]; intros [|t tokens] xs H;
    cbn [unpack_floats] in H; try discriminate.
  - injection H as <-. split; [reflexivity | constructor].
  - destruct (float_of_str t) as [x|] eqn:Et; [|discriminate].
    destruct (unpack_floats F float_of_str n tokens) as [ys|e] eqn:E;
      [|discriminate].
    injection H as <-. destruct (IH tokens ys E) as [L HF].
    split; [simpl; congruence | constructor; assumption].
Qed.

Lemma unpack_floats_raises (n : nat) (tokens : list str) (e : error) :
  unpack_floats F float_of_str n tokens = Raises e -> e = Std ValueError.
Proof.
  revert tokens. induction n as [|n IH]; intros [|t tokens] H;
    cbn [unpack_floats] in H; try discriminate; try congruence.
  destruct (float_of_str t) as [x|]; [|congruence].
  destruct (unpack_floats F float_of_str n tokens) as [ys|e'] eqn:E;
    [discriminate|].
  injection H as <-. apply (IH tokens E).
Qed.

Lemma unpack_floats_wrong_length (n : nat) (tokens : list str) :
  length tokens <> n ->
  unpack_floats F float_of_str n tokens = Raises (Std ValueError).
Proof.
  intros Hlen.
  destruct (unpack_floats F float_of_str n tokens) as [xs|e] eqn:E.
  - apply unpack_floats_returns in E as [L _]. congruence.
  - apply unpack_floats_raises in E. congruence.
Qed.

(** What the worker measures is what the parent reports: the message of
    line 109, received with exit code 0, gives a [ProcessTimeResult] whose
    [wall], [user] and [system] are the worker's wall time, user time and
    system time, each in its own field, provided each float's text is free
    of whitespace and [float] reads it back. *)
Theorem worker_message_round_trip (wall_time cpu_user cpu_system : F) :
  is_token (str_of_float wall_time) = true ->
  is_token (str_of_float cpu_user) = true ->
  is_token (str_of_float cpu_system) = true ->
  float_of_str (str_of_float wall_time) = Some wall_time ->
  float_of_str (str_of_float cpu_user) = Some cpu_user ->
  float_of_str (str_of_float cpu_system) = Some cpu_system ->
  run_sgkit_afdist F float_of_str
    (sgkit_afdist_worker_message F str_of_float wall_time cpu_user cpu_system)
    0
  = Returns (mkProcessTimeResult wall_time cpu_system cpu_user).
Proof.
  intros T1 T2 T3 P1 P2 P3.
  unfold run_sgkit_afdist, sgkit_afdist_worker_message.
  rewrite split_three by assumption.
  cbn [unpack_floats]. rewrite P1, P2, P3. reflexivity.
Qed.


(** With exit status 0 and two numbers on the standard error, whatever
    whitespace surrounds them (as in the ["%S %U"] line of [/usr/bin/time]),
    the first is reported as [system] and the second as [user]; the standard
    output is printed only with [debug]. *)
Theorem time_cli_command_reads_two_numbers
        (wall_time sys_time user_time : F) (ws0 t1 sep t2 ws1 text : str)
        (debug : bool) :
  is_blank ws0 = true -> is_token t1 = true ->
  is_blank sep = true -> sep <> [] ->
  is_token t2 = true -> is_blank ws1 = true ->
  float_of_str t1 = Some sys_time ->
  float_of_str t2 = Some user_time ->
  time_cli_command F float_of_str wall_time
    (mkCompletedProcess 0 text (ws0 ++ t1 ++ sep ++ t2 ++ ws1)) debug
  = (Returns (mkProcessTimeResult wall_time sys_time user_time),
     if debug then [text] else []).
Proof.
  intros H0 H1 Hs Hne H2 H3 P1 P2. unfold time_cli_command.
  cbn [returncode stderr stdout Z.eqb negb].
  rewrite split_two by assumption.
  cbn [unpack_floats]. rewrite P1, P2. reflexivity.
Qed.

(** [time_cli_command] gives a result only for exit status 0 and exactly two
    numbers on the standard error: a non-zero status raises
    CalledProcessError; any other number of tokens (a warning of the timed
    tool, say) raises ValueError; and on failure nothing is printed. *)
Theorem time_cli_command_needs_two_numbers
        (wall_time : F) (out : CompletedProcess) (debug : bool) :
  (returncode out <> 0%Z ->
   time_cli_command F float_of_str wall_time out debug
   = (Raises CalledProcessError, [])) /\
  (returncode out = 0%Z -> length (split (stderr out)) <> 2%nat ->
   time_cli_command F float_of_str wall_time out debug
   = (Raises (Std ValueError), [])) /\
  (forall r printed,
     time_cli_command F float_of_str wall_time out debug
     = (Returns r, printed) ->
     returncode out = 0%Z /\
     exists t1 t2,
       split (stderr out) = [t1; t2] /\
       float_of_str t1 = Some (system r) /\
       float_of_str t2 = Some (user r) /\
       wall r = wall_time /\
       printed = if debug then [stdout out] else []).
Proof.
  unfold time_cli_command. split; [|split].
  - intros Hne. apply Z.eqb_neq in Hne. rewrite Hne. reflexivity.
  - intros -> Hlen. cbn [Z.eqb negb].
    rewrite unpack_floats_wrong_length by exact Hlen. reflexivity.
  - intros r printed H.
    destruct (returncode out =? 0)%Z eqn:Erc; cbn [negb] in H;
      [|discriminate].
    apply Z.eqb_eq in Erc. split; [exact Erc|].
    destruct (unpack_floats F float_of_str 2 (split (stderr out)))
      as [xs|e] eqn:E; [|discriminate].
    destruct xs as [|s [|u [|x xs]]]; try discriminate.
    injection H as <- <-.
    apply unpack_floats_returns in E as [L HF].
    destruct (split (stderr out)) as [|t1 [|t2 [|t3 ts]]]; try discriminate.
    inversion HF as [|? ? ? ? P1 HF']; subst.
    inversion HF' as [|? ? ? ? P2 _]; subst.
    exists t1, t2. repeat split; assumption.
Qed.

End TimingFacts.

Lemma worker_message_round_trip_witness :
  run_sgkit_afdist N N_of_decimal
    (sgkit_afdist_worker_message N decimal_of_N 12%N 7%N 3%N) 0
  = Returns (mkProcessTimeResult 12%N 3%N 7%N).
Proof.
  apply (worker_message_round_trip N N_of_decimal decimal_of_N 12%N 7%N 3%N);
    reflexivity.
Defined.


Lemma time_cli_command_reads_two_numbers_witness :
  time_cli_command N N_of_decimal 9%N
    (mkCompletedProcess 0 [111%N; 107%N]
       ([] ++ decimal_of_N 3%N ++ [32%N] ++ decimal_of_N 7%N ++ [10%N])) true
  = (Returns (mkProcessTimeResult 9%N 3%N 7%N), [[111%N; 107%N]]).
Proof.
  apply (time_cli_command_reads_two_numbers N N_of_decimal 9%N 3%N 7%N
           [] (decimal_of_N 3%N) [32%N] (decimal_of_N 7%N) [10%N]
           [111%N; 107%N] true);
    try reflexivity; discriminate.
Defined.

(** * Collecting file sizes *)

(** ** The sort *)

Lemma string_ltb_asym (s1 s2 : string) :
  String.ltb s1 s2 = true -> String.ltb s2 s1 = false.
Proof.
  unfold String.ltb. rewrite (String.compare_antisym s1 s2).
  destruct (String.compare s2 s1); simpl; congruence.
Qed.

Lemma row_ltb_asym (a b : Row) : row_ltb a b = true -> row_ltb b a = false.
Proof.
  unfold row_ltb. intros H.
  apply orb_true_iff in H as [H|H].
  - apply Z.ltb_lt in H. apply orb_false_iff. split.
    + apply Z.ltb_ge. lia.
    + apply andb_false_iff. left. apply Z.eqb_neq. lia.
  - apply andb_true_iff in H as [He Hs]. apply Z.eqb_eq in He.
    apply orb_false_iff. split.
    + apply Z.ltb_ge. lia.
    + apply andb_false_iff. right. apply string_ltb_asym. exact Hs.
Qed.

Lemma insert_row_perm (x : nat * Row) (t : Table) :
  Permutation (insert_row x t) (x :: t).
Proof.
  induction t as [|y t IH]; simpl; [reflexivity|].
  destruct (row_ltb (snd x) (snd y)); [reflexivity|].
  rewrite IH. apply perm_swap.
Qed.

Lemma hdrel_insert_row (y x : nat * Row) (t : Table) :
  HdRel in_order y t -> in_order y x -> HdRel in_order y (insert_row x t).
Proof.
  intros Ht Hx. destruct t as [|z t]; simpl.
  - constructor. exact Hx.
  - destruct (row_ltb (snd x) (snd z)); constructor;
      [exact Hx | inversion Ht; assumption].
Qed.

Lemma insert_row_sorted (x : nat * Row) (t : Table) :
  Sorted in_order t -> Sorted in_order (insert_row x t).
Proof.
  induction 1 as [|y t Ht IH Hy]; simpl.
  - repeat constructor.
  - destruct (row_ltb (snd x) (snd y)) eqn:E.
    + constructor; [constructor; assumption|].
      constructor. apply row_ltb_asym. exact E.
    + constructor; [exact IH|].
      apply hdrel_insert_row; assumption.
Qed.

Lemma fold_insert_row (t acc : Table) :
  Sorted in_order acc ->
  Sorted in_order (fold_left (fun sorted x => insert_row x sorted) t acc) /\
  Permutation (fold_left (fun sorted x => insert_row x sorted) t acc)
              (acc ++ t).
Proof.
  revert acc. induction t as [|x t IH]; intros acc Hacc; simpl.
  - rewrite app_nil_r. split; [exact Hacc | reflexivity].
  - destruct (IH (insert_row x acc) (insert_row_sorted x acc Hacc))
      as [Hs Hp].
    split; [exact Hs|]. rewrite Hp, insert_row_perm.
    apply Permutation_middle.
Qed.

Lemma table_of_sorted (rows : list Row) : Sorted in_order (table_of rows).
Proof. apply fold_insert_row. constructor. Qed.

Lemma table_of_perm (rows : list Row) :
  Permutation (table_of rows) (DataFrame_of_rows rows).
Proof.
  unfold table_of, sort_values.
  apply (fold_insert_row (DataFrame_of_rows rows) []). constructor.
Qed.

(** ** The loops *)

Lemma du_returns (p : Path) : du p = Returns (du_size p).
Proof. destruct p as [n|]; [apply du_value | reflexivity]. Qed.

Lemma csv_file_written (evs : list event) (t : Table) :
  csv_file (evs ++ [ToCsv t]) = Some t.
Proof. unfold csv_file. rewrite fold_left_app. reflexivity. Qed.

Lemma csv_file_echo (evs : list event) (path : string) (n m : Z) :
  csv_file (evs ++ [Echo path n m]) = csv_file evs.
Proof. unfold csv_file. rewrite fold_left_app. reflexivity. Qed.

Lemma csv_file_print (evs : list event) (t : Table) :
  csv_file (evs ++ [Print t]) = csv_file evs.
Proof. unfold csv_file. rewrite fold_left_app. reflexivity. Qed.

Lemma quiet_snoc (evs : list event) (e : event) :
  quiet evs -> is_echo_or_csv e = true -> quiet (evs ++ [e]).
Proof.
  unfold quiet. intros H He. rewrite forallb_app, H. cbn. rewrite He.
  reflexivity.
Qed.

Lemma for_each_app {A : Type} (body : A -> state -> option error * state)
      (l1 l2 : list A) (st : state) :
  for_each body (l1 ++ l2) st
  = match for_each body l1 st with
    | (None, st') => for_each body l2 st'
    | (Some e, st') => (Some e, st')
    end.
Proof.
  revert st. induction l1 as [|x l1 IH]; intros st; simpl; [reflexivity|].
  destruct (body x st) as [[e|] st']; [reflexivity | apply IH].
Qed.

Lemma tool_loop (ts : TreeSequence) (ds : SgkitDataset)
      (items : list (string * Path)) (st : state) :
  in_step st ->
  exists st',
    for_each (tool_step ts ds) items st = (None, st') /\
    in_step st' /\
    fs_data st' = fs_data st ++ map (row_of ts ds) items.
Proof.
  revert st. induction items as [|item items IH]; intros st Hst.
  - exists st. rewrite app_nil_r. auto.
  - cbn [for_each]. unfold tool_step at 1. rewrite du_returns.
    fold (row_of ts ds item).
    match goal with
    | |- context [for_each _ items ?s] => destruct (IH s) as [st' [E [I D]]]
    end.
    + destruct Hst as [_ [_ Hskip]]. split; [|split]; cbn.
      * apply csv_file_written.
      * split; [reflexivity|]. intros H. apply app_eq_nil in H as [_ H].
        discriminate.
      * apply quiet_snoc; [exact Hskip | reflexivity].
    + exists st'. split; [exact E|]. split; [exact I|].
      rewrite D. cbn [fs_data map]. rewrite <- app_assoc. reflexivity.
Qed.

Lemma source_step_consistent (src : Source) (st : state) :
  consistent src = true -> in_step st ->
  exists st',
    source_step src st = (None, st') /\
    in_step st' /\
    fs_data st' = fs_data st ++ rows_of_source src.
Proof.
  unfold consistent, rows_of_source, source_step. intros Hc Hst.
  destruct (load_ts src) as [ts|e]; [|discriminate].
  destruct (load_ds src) as [ds|e]; [|discriminate].
  apply andb_prop in Hc as [Hc H3]. apply andb_prop in Hc as [H1 H2].
  rewrite H1, H2, H3. cbn [exists_attribute negb].
  destruct (tool_loop ts ds (tmap src)
              (emit (Echo (ts_path src) (num_individuals ts) (num_sites ts))
                    st)) as [st' [E [I D]]].
  - destruct Hst as [Hf [Hd Hskip]]. split; [|split]; cbn [emit fs_events fs_df fs_data].
    + rewrite csv_file_echo. exact Hf.
    + exact Hd.
    + apply quiet_snoc; [exact Hskip | reflexivity].
  - exists st'. split; [exact E|]. split; [exact I | exact D].
Qed.

Lemma source_step_inconsistent (src : Source) (st : state) :
  consistent src = false -> in_step st ->
  exists st',
    source_step src st = (Some (failure_of src), st') /\
    in_step st' /\
    fs_data st' = fs_data st.
Proof.
  unfold consistent, failure_of, source_step. intros Hc Hst.
  destruct (load_ts src) as [ts|e]; [|exists st; auto].
  assert (Hst' : in_step
            (emit (Echo (ts_path src) (num_individuals ts) (num_sites ts)) st)).
  { destruct Hst as [Hf [Hd Hskip]]. split; [|split]; cbn [emit fs_events fs_df fs_data].
    - rewrite csv_file_echo. exact Hf.
    - exact Hd.
    - apply quiet_snoc; [exact Hskip | reflexivity]. }
  cbn [exists_attribute negb].
  destruct (load_ds src) as [ds|e]; [|eexists; split; [reflexivity | auto]].
  destruct (num_samples ts / 2 =? samples_shape0 ds)%Z;
    [|eexists; split; [reflexivity | auto]].
  destruct (num_sites ts =? Z.of_nat (length (variant_position ds)))%Z;
    [|eexists; split; [reflexivity | auto]].
  cbn [andb] in Hc. rewrite Hc.
  eexists; split; [reflexivity | auto].
Qed.

Lemma sources_loop (sources : list Source) (st : state) :
  forallb consistent sources = true -> in_step st ->
  exists st',
    for_each source_step sources st = (None, st') /\
    in_step st' /\
    fs_data st' = fs_data st ++ flat_map rows_of_source sources.
Proof.
  revert st. induction sources as [|src sources IH]; intros st Hc Hst.
  - exists st. rewrite app_nil_r. auto.
  - cbn [forallb] in Hc. apply andb_prop in Hc as [Hsrc Hc].
    destruct (source_step_consistent src st Hsrc Hst) as [st1 [E1 [I1 D1]]].
    destruct (IH st1 Hc I1) as [st' [E [I D]]].
    exists st'. cbn [for_each flat_map]. rewrite E1.
    split; [exact E|]. split; [exact I|].
    rewrite D, D1, <- app_assoc. reflexivity.
Qed.

Lemma rows_of_source_length (src : Source) :
  consistent src = true -> length (rows_of_source src) = 5%nat.
Proof.
  unfold consistent, rows_of_source.
  destruct (load_ts src); [|discriminate].
  destruct (load_ds src); [|discriminate]. reflexivity.
Qed.

Lemma all_rows_length (sources : list Source) :
  forallb consistent sources = true ->
  length (flat_map rows_of_source sources) = (5 * length sources)%nat.
Proof.
  induction sources as [|src sources IH]; intros Hc; [reflexivity|].
  cbn [forallb] in Hc. apply andb_prop in Hc as [Hsrc Hc].
  cbn [flat_map]. rewrite length_app, rows_of_source_length, IH by assumption.
  simpl. lia.
Qed.

Lemma initial_in_step : in_step (mkState [] None []).
Proof. repeat split. Qed.

Lemma first_inconsistent (sources : list Source) :
  forallb consistent sources = false ->
  exists good bad rest,
    sources = good ++ bad :: rest /\
    forallb consistent good = true /\ consistent bad = false.
Proof.
  induction sources as [|src sources IH]; intros H; [discriminate|].
  cbn [forallb] in H. destruct (consistent src) eqn:E.
  - destruct (IH H) as [good [bad [rest [-> [Hg Hb]]]]].
    exists (src :: good), bad, rest. cbn [forallb]. rewrite E. auto.
  - exists [], src, sources. auto.
Qed.

Lemma file_size_good_run (sources : list Source) :
  sources <> [] -> forallb consistent sources = true ->
  exists st0,
    in_step st0 /\
    fs_data st0 = flat_map rows_of_source sources /\
    fs_df st0 = Some (table_of (fs_data st0)) /\
    file_size sources = (None, emit (Print (table_of (fs_data st0))) st0).
Proof.
  intros Hne Hc.
  destruct (sources_loop sources _ Hc initial_in_step) as [st [E [I D]]].
  cbn [fs_data app] in D. exists st.
  assert (Hdf : fs_df st = Some (table_of (fs_data st))).
  { destruct I as [_ [Hd _]]. destruct (fs_df st) as [t|].
    - destruct Hd as [-> _]. reflexivity.
    - exfalso. pose proof (all_rows_length sources Hc) as L.
      rewrite <- D, Hd in L. destruct sources; [congruence|].
      simpl in L. lia. }
  split; [exact I|]. split; [exact D|]. split; [exact Hdf|].
  unfold file_size. rewrite E, Hdf. reflexivity.
Qed.

Lemma file_size_bad_run (good rest : list Source) (bad : Source) :
  forallb consistent good = true -> consistent bad = false ->
  exists st,
    in_step st /\
    fs_data st = flat_map rows_of_source good /\
    file_size (good ++ bad :: rest) = (Some (failure_of bad), st).
Proof.
  intros Hg Hb.
  destruct (sources_loop good _ Hg initial_in_step) as [st1 [E1 [I1 D1]]].
  cbn [fs_data app] in D1.
  destruct (source_step_inconsistent bad st1 Hb I1) as [st [E [I D]]].
  exists st. split; [exact I|]. split; [congruence|].
  unfold file_size. rewrite for_each_app, E1. cbn [for_each].
  rewrite E. reflexivity.
Qed.

(** When the glob yields at least one tree sequence and every source is
    consistent, the run ends normally: [data] holds five rows for each
    source, in the order of the glob; the output file and the final print
    show the table of all these rows, each row once, sorted by
    [num_samples] and then by [tool]. *)
Theorem file_size_completes (sources : list Source) :
  sources <> [] -> forallb consistent sources = true ->
  exists st,
    file_size sources = (None, st) /\
    fs_data st = flat_map rows_of_source sources /\
    length (fs_data st) = (5 * length sources)%nat /\
    csv_file (fs_events st) = Some (table_of (fs_data st)) /\
    last (fs_events st) (Print []) = Print (table_of (fs_data st)) /\
    Sorted in_order (table_of (fs_data st)) /\
    Permutation (table_of (fs_data st)) (DataFrame_of_rows (fs_data st)).
Proof.
  intros Hne Hc.
  destruct (file_size_good_run sources Hne Hc)
    as [st0 [[Hf _] [D [Hdf E]]]].
  exists (emit (Print (table_of (fs_data st0))) st0).
  cbn [emit fs_events fs_df fs_data].
  split; [exact E|]. split; [exact D|].
  split; [rewrite D; apply all_rows_length; exact Hc|].
  split; [rewrite csv_file_print, Hf; exact Hdf|].
  split; [apply last_last|].
  split; [apply table_of_sorted | apply table_of_perm].
Qed.


Lemma file_size_completes_witness :
  exists st,
    file_size
      [mkSource "a.trees"
         (Returns (mkTreeSequence 5 10 2 100.5 [1.0; 7.5]))
         (Returns (mkSgkitDataset 5 [1; 7]%Z))
         (Some (File 100)) (Some (File 40))
         (Some (Directory 4096 [File 30; Directory 4096 [File 5]]))
         (Some (File 20)) None]
    = (None, st) /\
    map (fun r => (row_tool (snd r), row_size (snd r))) (table_of (fs_data st))
    = [("bcf"%string, 40%N); ("genozip"%string, 0%N); ("sav"%string, 20%N);
       ("sgkit"%string, 35%N); ("tsk"%string, 100%N)].
Proof.
  destruct (file_size_completes
              [mkSource "a.trees"
                 (Returns (mkTreeSequence 5 10 2 100.5 [1.0; 7.5]))
                 (Returns (mkSgkitDataset 5 [1; 7]%Z))
                 (Some (File 100)) (Some (File 40))
                 (Some (Directory 4096 [File 30; Directory 4096 [File 5]]))
                 (Some (File 20)) None])
    as [st [E [D _]]]; [discriminate | reflexivity |].
  exists st. split; [exact E|]. rewrite D. reflexivity.
Defined.


(** The run ends normally exactly when the glob yields at least one source
    and every source is consistent; with no source at all, [print(df)] finds
    [df] unbound and the run ends with UnboundLocalError, nothing written. *)
Theorem file_size_returns_iff (sources : list Source) :
  (fst (file_size sources) = None
   <-> sources <> [] /\ forallb consistent sources = true) /\
  file_size [] = (Some UnboundLocalError, mkState [] None []).
Proof.
  split; [|reflexivity]. split.
  - intros H. destruct (forallb consistent sources) eqn:Hc.
    + split; [|reflexivity]. intros ->. discriminate.
    + exfalso.
      destruct (first_inconsistent sources Hc)
        as [good [bad [rest [-> [Hg Hb]]]]].
      destruct (file_size_bad_run good rest bad Hg Hb) as [st [_ [_ E]]].
      rewrite E in H. discriminate.
  - intros [Hne Hc].
    destruct (file_size_good_run sources Hne Hc) as [st [_ [_ [_ E]]]].
    rewrite E. reflexivity.
Qed.

Lemma file_size_events (sources : list Source) :
  exists evs,
    quiet evs /\
    (fs_events (snd (file_size sources)) = evs
     \/ exists t, fs_events (snd (file_size sources)) = evs ++ [Print t]).
Proof.
  destruct (forallb consistent sources) eqn:Hc.
  - destruct (sources_loop sources _ Hc initial_in_step)
      as [st [E [[_ [_ Hq]] _]]].
    exists (fs_events st). split; [exact Hq|].
    unfold file_size. rewrite E.
    destruct (fs_df st) as [t|]; [right; exists t | left]; reflexivity.
  - destruct (first_inconsistent sources Hc)
      as [good [bad [rest [-> [Hg Hb]]]]].
    destruct (sources_loop good _ Hg initial_in_step) as [st1 [E1 [I1 _]]].
    destruct (source_step_inconsistent bad st1 Hb I1)
      as [st [E [[_ [_ Hq]] _]]].
    exists (fs_events st). split; [exact Hq|]. left.
    unfold file_size. rewrite for_each_app, E1. cbn [for_each].
    rewrite E. reflexivity.
Qed.

(** No source is ever skipped: [not sg_path.exists] tests the method object,
    not the path, so the line "Skipping missing" is never printed, whether
    or not the [.sgz] path exists; a source whose dataset does not load ends
    the run instead. *)
Theorem file_size_never_skips (sources : list Source) (p : Path) :
  ~ In (PrintSkipping p) (fs_events (snd (file_size sources))).
Proof.
  destruct (file_size_events sources) as [evs [Hq [E|[t E]]]];
    rewrite E; intros Hin.
  - unfold quiet in Hq. rewrite forallb_forall in Hq.
    specialize (Hq _ Hin). discriminate.
  - apply in_app_or in Hin as [Hin|[Hin|[]]]; [|discriminate].
    unfold quiet in Hq. rewrite forallb_forall in Hq.
    specialize (Hq _ Hin). discriminate.
Qed.
